(** * VisionRAG: retrieval and indexing layer

    A shallow embedding of [app/rag_pipeline.py], [app/llm_client.py]
    ([get_embedding]), [app/scene_detection.py]
    ([SceneDetector.extract_keyframes]) and the question-answering branch of
    [app/main.py].

    Python floats are rationals [Q]; where the code's result depends on
    rounding ([1 / (1 + distance)], the [//], [%] and [divmod] of
    timestamps) the operations round to binary64 as CPython does (module
    [F64]).  The ChromaDB collection (an external library) is modelled by
    its documented behaviour: [add] rejects a batch with repeated ids and
    skips ids already stored, [query] filters on metadata, returns its hits
    sorted ascending by (squared L2, the default space) distance and keeps
    [n_results], [get]/[delete] select by metadata / by ids. *)

From Stdlib Require Import String List ZArith QArith Qround Qpower Qabs Lia Lqa Bool.
From Stdlib Require Import Sorting.Sorted Sorting.Permutation.
From Stdlib Require Import Numbers.DecimalString Numbers.DecimalPos Numbers.DecimalZ.
Import ListNotations.
Set Warnings "-register-all".

(** ** Exceptions and the error monad *)

Inductive error :=
| RequestException            (** [requests.exceptions.RequestException] *)
| ValueError (msg : string)   (** [ValueError(msg)] *)
| TypeError                   (** [TypeError] raised by [in] / subscripting *)
| IndexError                  (** list index out of range *)
| ZeroDivisionError
| KeyError
| DuplicateIDError            (** chromadb: repeated ids inside one [add] *)
| InvalidNResults              (** chromadb: [n_results] must be positive *)
| AttributeError.             (** a method the value does not have *)

Inductive result (A : Type) : Type :=
| Ok (a : A)
| Err (e : error).
Arguments Ok {A} a.
Arguments Err {A} e.

Definition bind {A B} (m : result A) (f : A -> result B) : result B :=
  match m with Ok a => f a | Err e => Err e end.

Notation "x <- m ;; k" := (bind m (fun x => k))
  (at level 61, m at next level, right associativity).

(** Python's [for ... in ...: out.append(f(x))] where [f] may raise. *)
Fixpoint map_r {A B} (f : A -> result B) (l : list A) : result (list B) :=
  match l with
  | [] => Ok []
  | x :: l' => y <- f x ;; ys <- map_r f l' ;; Ok (y :: ys)
  end.

(** [f"{z}"] for a Python [int]. *)
Definition str_of_Z (z : Z) : string := NilZero.string_of_int (Z.to_int z).

(** ** Python floats (IEEE 754 binary64)

    A double is a rational [k * 2^j] with [|k| <= 2^53] and [j >= -1074].
    [round] maps a rational to the nearest double, ties to even, as every
    float operation of CPython does with its exact result.  Overflow to
    [inf] is not modelled (the values in this program stay far below
    [2^1024]). *)

Module F64.

Definition emin : Z := -1074.

Definition pow2 (e : Z) : Q := Qpower (2 # 1) e.

Definition Qltb (a b : Q) : bool := negb (Qle_bool b a).

(** [floor(log2 x)] for [x > 0]. *)
Definition ilog2 (x : Q) : Z :=
  let e := (Z.log2 (Qnum x) - Z.log2 (Zpos (Qden x)))%Z in
  if Qltb x (pow2 e) then (e - 1)%Z else e.

(** The weight of the last mantissa bit of a positive [x]: 53 bits for a
    normal number, [2^-1074] for a subnormal one. *)
Definition exponent (x : Q) : Z := Z.max emin (ilog2 x - 52).

(** The integer nearest to [m], ties to the even one. *)
Definition round_half_even (m : Q) : Z :=
  let lo := Qfloor m in
  let f := m - inject_Z lo in
  if Qltb f (1 # 2) then lo
  else if Qltb (1 # 2) f then (lo + 1)%Z
  else if Z.even lo then lo else (lo + 1)%Z.

Definition round_pos (x : Q) : Q :=
  let e := exponent x in
  inject_Z (round_half_even (x / pow2 e)) * pow2 e.

Definition round (x : Q) : Q :=
  let x := Qred x in
  Qred (if Qltb 0 x then round_pos x
        else if Qltb x 0 then - round_pos (- x) else 0).

Definition is_double (x : Q) : Prop :=
  exists k j, (Z.abs k <= 2 ^ 53)%Z /\ (emin <= j)%Z /\ x == inject_Z k * pow2 j.

(** [a + b], [a - b] and [a / b] on floats ([b <> 0]). *)
Definition add (a b : Q) : Q := round (a + b).
Definition sub (a b : Q) : Q := round (a - b).
Definition div (a b : Q) : Q := round (a / b).

(** C's [trunc]. *)
Definition trunc (q : Q) : Z := Z.quot (Qnum q) (Zpos (Qden q)).

(** C's [fmod(x, y)]: [x - y * trunc(x / y)], which is always a double. *)
Definition fmod (x y : Q) : Q := Qred (x - y * inject_Z (trunc (x / y))).

(** [_float_div_mod(vx, wx)] of CPython's [floatobject.c] ([wx <> 0]):
    the floor quotient and the remainder of [divmod(vx, wx)].  [vx // wx]
    is the first, and [vx % wx] ([float_rem], the same remainder code) the
    second.  A zero remainder is [copysign(0.0, wx)], that is [0]. *)
Definition float_div_mod (vx wx : Q) : Q * Q :=
  let r := fmod vx wx in
  let q := div (sub vx r) wx in
  let '(r, q) :=
    if negb (Qeq_bool r 0) && xorb (Qltb wx 0) (Qltb r 0)
    then (add r wx, sub q 1)
    else (r, q) in
  let floordiv :=
    if Qeq_bool q 0 then 0
    else
      let fl := inject_Z (Qfloor q) in
      if Qltb (1 # 2) (sub q fl) then add fl 1 else fl in
  (floordiv, r).

Definition floordiv (vx wx : Q) : Q := fst (float_div_mod vx wx).
Definition py_mod (vx wx : Q) : Q := snd (float_div_mod vx wx).

End F64.

(** ** Data model *)

(** A frame record as built by [process_video_pipeline] /
    [AudioProcessor.process_video]. *)
Record FrameRecord := {
  frame_index : Z;
  timestamp_seconds : Q;
  timestamp_str : string;
  caption : string
}.

(** The metadata dict written by [index_video_frames]. *)
Record Metadata := {
  md_video_id : string;
  md_frame_index : Z;
  md_timestamp_seconds : Q;
  md_timestamp_str : string;
  md_caption : string
}.

(** One stored item of the collection. *)
Record Entry := {
  e_id : string;
  e_document : string;
  e_embedding : list Q;
  e_metadata : Metadata
}.

(** The collection's contents, in insertion order. *)
Definition Store := list Entry.

(** The dict appended to [formatted_results] by [query_video]. *)
Record QueryResult := {
  qr_caption : string;
  qr_timestamp_str : string;
  qr_timestamp_seconds : Q;
  qr_frame_index : Z;
  distance : Q;
  similarity_score : Q
}.

(** The fields of a chromadb [QueryResult] read by [query_video];
    [None] is a field holding Python [None]. *)
Record Response := {
  r_metadatas : option (list (list Metadata));
  r_distances : option (list (list Q))
}.

(** ** The ChromaDB collection *)

Module Chroma.

(** Squared Euclidean distance (hnswlib's [l2] space, the default). *)
Definition l2 (x y : list Q) : Q :=
  fold_right (fun p acc => (fst p - snd p) * (fst p - snd p) + acc) 0
    (combine x y).

Definition has_id (st : Store) (i : string) : bool :=
  existsb (fun e => String.eqb (e_id e) i) st.

Fixpoint has_dup (ids : list string) : bool :=
  match ids with
  | [] => false
  | i :: r => existsb (String.eqb i) r || has_dup r
  end.

(** [collection.add]: a batch with a repeated id is refused as a whole;
    an id already stored is skipped (chromadb logs a warning). *)
Definition add (st : Store) (batch : list Entry) : result Store :=
  if has_dup (map e_id batch) then Err DuplicateIDError
  else Ok (st ++ filter (fun e => negb (has_id st (e_id e))) batch).

Definition matches (v : string) (e : Entry) : bool :=
  String.eqb (md_video_id (e_metadata e)) v.

(** Stable insertion of an (entry, distance) pair by ascending distance. *)
Fixpoint insert_by_dist (x : Entry * Q) (l : list (Entry * Q)) :=
  match l with
  | [] => [x]
  | y :: l' => if Qle_bool (snd x) (snd y) then x :: l
               else y :: insert_by_dist x l'
  end.

Fixpoint sort_by_dist (l : list (Entry * Q)) : list (Entry * Q) :=
  match l with
  | [] => []
  | x :: l' => insert_by_dist x (sort_by_dist l')
  end.

(** [collection.query(query_embeddings=[q], n_results=n,
    where={"video_id": v})] for one query embedding.  The hits are modelled
    as the [n] entries of the video nearest to [q] by exact distance;
    chromadb finds them in an approximate (HNSW) index over float32
    vectors, so which entries come back is not modelled exactly.  What the
    code relies on is: hits of the video only, at most [n_results] of them
    (all of them when there are fewer), listed by ascending distance. *)
Definition query (st : Store) (q : list Q) (n : Z) (v : string)
  : result Response :=
  if (n <=? 0)%Z then Err InvalidNResults
  else
    let hits := firstn (Z.to_nat n)
                  (sort_by_dist
                     (map (fun e => (e, l2 q (e_embedding e)))
                        (filter (matches v) st))) in
    Ok {| r_metadatas := Some [map (fun p => e_metadata (fst p)) hits];
          r_distances := Some [map snd hits] |}.

(** [collection.get(where={"video_id": v})['ids']]. *)
Definition get_ids (st : Store) (v : string) : list string :=
  map e_id (filter (matches v) st).

(** [collection.delete(ids=ids)]. *)
Definition delete (st : Store) (ids : list string) : Store :=
  filter (fun e => negb (existsb (String.eqb (e_id e)) ids)) st.

End Chroma.

(** ** [rag_pipeline.py] *)

Section Pipeline.

(** [embeddings_fn]: text to vector; it may raise. *)
Variable embeddings_fn : string -> result (list Q).

(** [frame_id = f"{video_id}_{record['frame_index']}"] *)
Definition frame_id (video_id : string) (record : FrameRecord) : string :=
  (video_id ++ "_" ++ str_of_Z (frame_index record))%string.

(** [document = f"Video {video_id}, time {record['timestamp_str']}: "
    f"{record['caption']}"] *)
Definition document (video_id : string) (record : FrameRecord) : string :=
  ("Video " ++ video_id ++ ", time " ++ timestamp_str record
   ++ ": " ++ caption record)%string.

(** The loop body of [index_video_frames] for one record. *)
Definition index_one (video_id : string) (record : FrameRecord)
  : result Entry :=
  let frame_id := frame_id video_id record in
  let document := document video_id record in
  embedding <- embeddings_fn document ;;
  Ok {| e_id := frame_id;
        e_document := document;
        e_embedding := embedding;
        e_metadata := {| md_video_id := video_id;
                         md_frame_index := frame_index record;
                         md_timestamp_seconds := timestamp_seconds record;
                         md_timestamp_str := timestamp_str record;
                         md_caption := caption record |} |}.

(** [index_video_frames(collection, video_id, frame_records, embeddings_fn)]:
    the outcome and the collection afterwards.  All embeddings are computed
    first; the collection is written once, by a single [add]. *)
Definition index_video_frames (st : Store) (video_id : string)
  (frame_records : list FrameRecord) : result nat * Store :=
  match frame_records with
  | [] => (Ok 0%nat, st)
  | _ =>
    match map_r (index_one video_id) frame_records with
    | Err e => (Err e, st)
    | Ok entries =>
      match Chroma.add st entries with
      | Err e => (Err e, st)
      | Ok st' => (Ok (length entries), st')
      end
    end
  end.

(** One iteration of the formatting loop of [query_video]:
    [results['distances'][0][i] if results['distances'] else 0.0], then
    [1 / (1 + distance)] in floats: the sum is rounded, then the quotient. *)
Definition format_one (dists : option (list (list Q))) (i : nat)
  (metadata : Metadata) : result QueryResult :=
  d <- match dists with
       | Some (d0 :: _) =>
         match nth_error d0 i with Some d => Ok d | None => Err IndexError end
       | _ => Ok 0   (* [None] or [[]]: falsy *)
       end ;;
  let denom := F64.add 1 d in
  if Qeq_bool denom 0 then Err ZeroDivisionError
  else Ok {| qr_caption := md_caption metadata;
             qr_timestamp_str := md_timestamp_str metadata;
             qr_timestamp_seconds := md_timestamp_seconds metadata;
             qr_frame_index := md_frame_index metadata;
             distance := d;
             similarity_score := F64.div 1 denom |}.

Fixpoint format_from (dists : option (list (list Q))) (i : nat)
  (ms : list Metadata) : result (list QueryResult) :=
  match ms with
  | [] => Ok []
  | m :: ms' => r <- format_one dists i m ;;
                rs <- format_from dists (S i) ms' ;;
                Ok (r :: rs)
  end.

(** Lines 141-156 of [query_video]. *)
Definition format_results (results : Response) : result (list QueryResult) :=
  match r_metadatas results with
  | Some (m0 :: _) =>
    match m0 with
    | [] => Ok []
    | _ => format_from (r_distances results) 0 m0
    end
  | _ => Ok []
  end.

(** [query_video(collection, video_id, question, top_k, embeddings_fn)],
    over any collection whose [query] is [coll_query]. *)
Definition query_video_with
  (coll_query : list Q -> Z -> string -> result Response)
  (video_id question : string) (top_k : Z) : result (list QueryResult) :=
  query_embedding <- embeddings_fn question ;;
  results <- coll_query query_embedding top_k video_id ;;
  format_results results.

(** [query_video] on a ChromaDB collection holding [st]. *)
Definition query_video (st : Store) (video_id question : string) (top_k : Z)
  : result (list QueryResult) :=
  query_video_with (Chroma.query st) video_id question top_k.

End Pipeline.

(** [delete_video_frames(collection, video_id)]: the count returned and the
    collection afterwards. *)
Definition delete_video_frames (st : Store) (video_id : string) : nat * Store :=
  match Chroma.get_ids st video_id with
  | [] => (0%nat, st)
  | ids => (length ids, Chroma.delete st ids)
  end.

(** [config.MIN_TOP_K], [config.MAX_TOP_K]. *)
Definition MIN_TOP_K : Z := 3.
Definition MAX_TOP_K : Z := 20.

(** ** [llm_client.get_embedding] *)

(** A decoded JSON body. *)
Inductive json :=
| JNull
| JBool (b : bool)
| JNum (q : Q)
| JStr (s : string)
| JArr (l : list json)
| JObj (kvs : list (string * json)).

(** What [requests.post(...)] yields: no response at all (connection
    refused, timeout), or a status code and a body ([None] when the body is
    not JSON, on which [response.json()] raises). *)
Inductive http_response :=
| HttpUnreachable
| HttpReply (status : Z) (body : option json).

(** [config.OLLAMA_EMBEDDING_MODEL] (its default). *)
Definition OLLAMA_EMBEDDING_MODEL : string := "nomic-embed-text".

Fixpoint is_substring (needle hay : string) : bool :=
  String.prefix needle hay ||
  match hay with
  | EmptyString => false
  | String _ hay' => is_substring needle hay'
  end.

(** Python's [key in result] for a decoded JSON value. *)
Definition py_contains (key : string) (j : json) : result bool :=
  match j with
  | JObj kvs => Ok (existsb (fun kv => String.eqb (fst kv) key) kvs)
  | JArr l => Ok (existsb (fun x => match x with
                                    | JStr s => String.eqb s key
                                    | _ => false
                                    end) l)
  | JStr s => Ok (is_substring key s)
  | _ => Err TypeError
  end.

(** Python's [result[key]] for a decoded JSON value. *)
Definition py_getitem (j : json) (key : string) : result json :=
  match j with
  | JObj kvs =>
    match find (fun kv => String.eqb (fst kv) key) kvs with
    | Some kv => Ok (snd kv)
    | None => Err KeyError
    end
  | _ => Err TypeError
  end.

(** The JSON payload [{"model": ..., "prompt": text}]. *)
Definition embedding_request (text : string) : json :=
  JObj [("model"%string, JStr OLLAMA_EMBEDDING_MODEL);
        ("prompt"%string, JStr text)].

Section GetEmbedding.

(** The server behind [f"{config.OLLAMA_BASE_URL}/api/embeddings"]. *)
Variable post : json -> http_response.

(** [get_embedding(text)]: transport failures, HTTP error statuses
    ([raise_for_status]) and undecodable bodies are all
    [RequestException]s, caught and re-raised as one; the [ValueError]
    and a [TypeError] from [in] are not caught. *)
Definition get_embedding (text : string) : result json :=
  match post (embedding_request text) with
  | HttpUnreachable => Err RequestException
  | HttpReply status body =>
    if ((400 <=? status) && (status <? 600))%Z then Err RequestException
    else
      match body with
      | None => Err RequestException
      | Some result =>
        present <- py_contains "embedding"%string result ;;
        if negb present
        then Err (ValueError "No embedding returned from Ollama"%string)
        else py_getitem result "embedding"%string
      end
  end.

End GetEmbedding.

(** ** [SceneDetector.extract_keyframes] *)

(** [int(x)]: truncation toward zero. *)
Definition py_int (q : Q) : Z := Z.quot (Qnum q) (Zpos (Qden q)).

(** [f"{z:02d}"] *)
Definition pad2 (z : Z) : string :=
  if ((0 <=? z) && (z <? 10))%Z then ("0" ++ str_of_Z z)%string else str_of_Z z.

(** [SceneDetector._format_timestamp(seconds)]:
    [m, s = divmod(seconds, 60)]; [h, m = divmod(m, 60)]. *)
Definition format_timestamp (seconds : Q) : string :=
  let '(m, s) := F64.float_div_mod seconds 60 in
  let '(h, m) := F64.float_div_mod m 60 in
  (pad2 (py_int h) ++ ":" ++ pad2 (py_int m) ++ ":" ++ pad2 (py_int s))%string.

(** [sorted(...)] on a list of indices (insertion sort). *)
Fixpoint insert_nat (x : nat) (l : list nat) : list nat :=
  match l with
  | [] => [x]
  | y :: l' => if Nat.leb x y then x :: l else y :: insert_nat x l'
  end.

Fixpoint sort_nat (l : list nat) : list nat :=
  match l with
  | [] => []
  | x :: l' => insert_nat x (sort_nat l')
  end.

Section SceneDetection.

Variable Frame : Type.
Variable Emb : Type.

(** [self._get_embeddings(frames_buffer)]: one normalised CLIP vector
    per frame (rows of the stacked array). *)
Variable get_embeddings : list Frame -> list Emb.

(** [KMeans(n_clusters=k, random_state=42, n_init=10).fit(embeddings)]
    followed by [pairwise_distances_argmin_min(kmeans.cluster_centers_,
    embeddings)[0]]: for each of the [k] centres, the index of the nearest
    embedding. *)
Variable closest_indices : nat -> list Emb -> list nat.

(** A video as [cv2.VideoCapture] sees it: whether it opens, its
    [CAP_PROP_FPS], and the frames [cap.read()] decodes, each with the
    [CAP_PROP_POS_MSEC] reported after reading it. *)
Record Video := {
  v_opened : bool;
  v_fps : Q;
  v_frames : list (Frame * Q)
}.

Record Keyframe := {
  kf_frame : Frame;
  kf_timestamp_seconds : Q;
  kf_timestamp_str : string;
  kf_frame_index : Z;
  kf_type : string
}.

(** [interval = int(fps / sample_rate) if sample_rate < fps else 1] *)
Definition interval (fps sample_rate : Q) : result Z :=
  if negb (Qle_bool fps sample_rate) then
    if Qeq_bool sample_rate 0 then Err ZeroDivisionError
    else Ok (py_int (fps / sample_rate))
  else Ok 1%Z.

(** The read loop: a frame is kept when [count % interval == 0], with
    its timestamp in seconds and its position [count]. *)
Fixpoint sample (interval count : Z) (frames : list (Frame * Q))
  : result (list (Frame * Q * Z)) :=
  match frames with
  | [] => Ok []
  | (frame, msec) :: rest =>
    if (interval =? 0)%Z then Err ZeroDivisionError
    else
      rest' <- sample interval (count + 1) rest ;;
      if (count mod interval =? 0)%Z
      then Ok ((frame, msec / 1000, count) :: rest')
      else Ok rest'
  end.

Definition frames_of (video : Video) : list (Frame * Q) :=
  if v_opened video then v_frames video else [].

(** [actual_clusters = min(num_clusters, n)], raised to [1] if below. *)
Definition actual_clusters (num_clusters : Z) (n : nat) : Z :=
  let a := Z.min num_clusters (Z.of_nat n) in
  if (a <? 1)%Z then 1%Z else a.

Definition keyframe_at (buf : list (Frame * Q * Z)) (idx : nat)
  : result Keyframe :=
  match nth_error buf idx with
  | Some (frame, ts, fi) =>
    Ok {| kf_frame := frame;
          kf_timestamp_seconds := ts;
          kf_timestamp_str := format_timestamp ts;
          kf_frame_index := fi;
          kf_type := "visual"%string |}
  | None => Err IndexError
  end.

(** [extract_keyframes(video_path, num_clusters, sample_rate)] *)
Definition extract_keyframes (video : Video) (num_clusters : Z)
  (sample_rate : Q) : result (list Keyframe) :=
  iv <- interval (v_fps video) sample_rate ;;
  buf <- sample iv 0 (frames_of video) ;;
  match buf with
  | [] => Ok []
  | _ =>
    let embeddings := get_embeddings (map (fun x => fst (fst x)) buf) in
    let k := actual_clusters num_clusters (length buf) in
    let selected := sort_nat (closest_indices (Z.to_nat k) embeddings) in
    map_r (keyframe_at buf) selected
  end.

End SceneDetection.

(** ** The question-answering branch of [main.py] (lines 290-344) *)

(** What the page shows, and the calls it makes to the completion service. *)
Inductive ui_event :=
| Warning (msg : string)
| LLMCall (question context : string)   (** [llm_client.generate_answer] *)
| ShowAnswer (answer : string)
| ShowEvidence (results : list QueryResult)
| ShowError (e : error).

Definition newline : string := String (Ascii.ascii_of_nat 10) EmptyString.

(** [f"[Frame {i}] time={result['timestamp_str']}\ncaption: {result['caption']}"] *)
Definition context_part (i : nat) (r : QueryResult) : string :=
  ("[Frame " ++ str_of_Z (Z.of_nat i) ++ "] time=" ++ qr_timestamp_str r
   ++ newline ++ "caption: " ++ qr_caption r)%string.

Fixpoint context_parts (i : nat) (rs : list QueryResult) : list string :=
  match rs with
  | [] => []
  | r :: rs' => context_part i r :: context_parts (S i) rs'
  end.

(** [sep.join(parts)] *)
Fixpoint join (sep : string) (parts : list string) : string :=
  match parts with
  | [] => EmptyString
  | [p] => p
  | p :: ps => (p ++ sep ++ join sep ps)%string
  end.

Section Main.

Variable embeddings_fn : string -> result (list Q).
(** [llm_client.generate_answer(question, context)] *)
Variable generate_answer : string -> string -> result string.

(** [main()] after the "Get Answer" button, on a collection holding [st]. *)
Definition ask_question (st : Store) (video_id question : string) (top_k : Z)
  : list ui_event :=
  match query_video embeddings_fn st video_id question top_k with
  | Err e => [ShowError e]
  | Ok [] => [Warning "No relevant frames found for your question."]
  | Ok results =>
    let context := join (newline ++ newline) (context_parts 1 results) in
    LLMCall question context ::
    match generate_answer question context with
    | Err e => [ShowError e]
    | Ok answer => [ShowAnswer answer; ShowEvidence results]
    end
  end.

End Main.

Definition is_llm_call (ev : ui_event) : bool :=
  match ev with LLMCall _ _ => true | _ => false end.

(** Number of calls issued to the completion service. *)
Definition llm_calls (evs : list ui_event) : nat :=
  length (filter is_llm_call evs).

(** ** Hits of a ChromaDB query *)

(** The [QueryResult] built for a hit: its metadata and its distance. *)
Definition mk_result (p : Entry * Q) : QueryResult :=
  let m := e_metadata (fst p) in
  {| qr_caption := md_caption m;
     qr_timestamp_str := md_timestamp_str m;
     qr_timestamp_seconds := md_timestamp_seconds m;
     qr_frame_index := md_frame_index m;
     distance := snd p;
     similarity_score := F64.div 1 (F64.add 1 (snd p)) |}.

(** The hits of a filtered query, nearest first, at most [top_k]. *)
Definition hits (st : Store) (q : list Q) (top_k : Z) (v : string) :=
  firstn (Z.to_nat top_k)
    (Chroma.sort_by_dist
       (map (fun e => (e, Chroma.l2 q (e_embedding e)))
          (filter (Chroma.matches v) st))).

(** ** [rag_pipeline.get_collection_stats] *)

(** [config.CHROMA_COLLECTION_NAME] *)
Definition CHROMA_COLLECTION_NAME : string := "video_frames".

Record CollectionStats := {
  total_frames : nat;
  collection_name : string
}.

(** [get_collection_stats(collection)]: [collection.count()] is the number
    of stored items. *)
Definition get_collection_stats (st : Store) : CollectionStats :=
  {| total_frames := length st; collection_name := CHROMA_COLLECTION_NAME |}.

(** ** [utils.format_timestamp] *)

Module Utils.

(** [format_timestamp(seconds)], with Python's float [//] and [%]. *)
Definition format_timestamp (seconds : Q) : string :=
  let hours := py_int (F64.floordiv seconds 3600) in
  let minutes := py_int (F64.floordiv (F64.py_mod seconds 3600) 60) in
  let secs := py_int (F64.py_mod seconds 60) in
  (pad2 hours ++ ":" ++ pad2 minutes ++ ":" ++ pad2 secs)%string.

End Utils.

(** ** [video_processing.py] *)

Section VideoProcessing.

Variable Frame : Type.

(** The dict appended by [extract_frames] for one kept frame. *)
Record ExtractedFrame := {
  x_frame_index : Z;
  x_timestamp_seconds : Q;
  x_timestamp_str : string;
  x_frame : Frame
}.

(** [int(video_fps / target_fps) if target_fps > 0 else 1], then
    [max(1, frame_interval)]. *)
Definition frame_interval (video_fps target_fps : Q) : Z :=
  let fi := if Qle_bool target_fps 0 then 1%Z
            else py_int (video_fps / target_fps) in
  Z.max 1 fi.

(** The read loop of [extract_frames] over the decoded frames: a frame is
    kept when [actual_frame_number % frame_interval == 0]; [frame_idx]
    counts the kept frames. *)
Fixpoint extract_loop (frame_interval : Z) (video_fps : Q)
  (frame_idx actual_frame_number : Z) (frames : list Frame)
  : result (list ExtractedFrame) :=
  match frames with
  | [] => Ok []
  | frame :: rest =>
    if (actual_frame_number mod frame_interval =? 0)%Z then
      if Qeq_bool video_fps 0 then Err ZeroDivisionError
      else
        let timestamp_seconds := inject_Z actual_frame_number / video_fps in
        rest' <- extract_loop frame_interval video_fps (frame_idx + 1)
                   (actual_frame_number + 1) rest ;;
        Ok ({| x_frame_index := frame_idx;
               x_timestamp_seconds := timestamp_seconds;
               x_timestamp_str := Utils.format_timestamp timestamp_seconds;
               x_frame := frame |} :: rest')
    else
      extract_loop frame_interval video_fps frame_idx
        (actual_frame_number + 1) rest
  end.

(** [extract_frames(video_path, target_fps)], the file decoding to
    [video]. *)
Definition extract_frames (video_path : string) (video : Video Frame)
  (target_fps : Q) : result (list ExtractedFrame) :=
  if negb (v_opened Frame video)
  then Err (ValueError ("Could not open video file: " ++ video_path)%string)
  else
    let video_fps := v_fps Frame video in
    extract_loop (frame_interval video_fps target_fps) video_fps 0 0
      (map fst (v_frames Frame video)).

(** The dict returned by [get_video_info]. *)
Record VideoInfo := {
  vi_fps : Q;
  vi_frame_count : Z;
  vi_duration : Q;
  vi_width : Z;
  vi_height : Z
}.

(** [get_video_info(video_path)]; [frame_count], [width] and [height] are
    the container's [CAP_PROP_FRAME_COUNT], [CAP_PROP_FRAME_WIDTH] and
    [CAP_PROP_FRAME_HEIGHT] after [int()]. *)
Definition get_video_info (video_path : string) (video : Video Frame)
  (frame_count width height : Z) : result VideoInfo :=
  if negb (v_opened Frame video)
  then Err (ValueError ("Could not open video file: " ++ video_path)%string)
  else
    let fps := v_fps Frame video in
    Ok {| vi_fps := fps;
          vi_frame_count := frame_count;
          vi_duration := if Qle_bool fps 0 then 0 else inject_Z frame_count / fps;
          vi_width := width;
          vi_height := height |}.

End VideoProcessing.

(** ** [main.process_video_pipeline] *)

(** The summary dict returned on success. *)
Record Summary := {
  s_video_id : string;
  s_num_frames : nat;
  s_fps : Q;
  s_duration : Q;
  s_video_info : VideoInfo;
  s_num_indexed : nat
}.

Section ProcessVideoPipeline.

Variable Frame : Type.
(** [video_processing.save_uploaded_video(uploaded_file, video_id)]: the
    path written, or the error of the write. *)
Variable save_uploaded_video : string -> result string.
(** [captioning.generate_caption(frame, model, processor, device)] *)
Variable generate_caption : Frame -> result string.
(** [llm_client.get_embedding] *)
Variable embeddings_fn : string -> result (list Q).

(** The loop body of step 3: the record built for one extracted frame. *)
Definition caption_frame (frame_data : ExtractedFrame Frame)
  : result FrameRecord :=
  c <- generate_caption (x_frame Frame frame_data) ;;
  Ok {| frame_index := x_frame_index Frame frame_data;
        timestamp_seconds := x_timestamp_seconds Frame frame_data;
        timestamp_str := x_timestamp_str Frame frame_data;
        caption := c |}.

(** [process_video_pipeline(uploaded_file, video_id, target_fps, ...)] on a
    collection holding [st]: the summary ([None] when an exception is
    caught or no frame is extracted) and the collection afterwards.
    [video] is what OpenCV decodes from the saved file. *)
Definition process_video_pipeline (st : Store) (video : Video Frame)
  (frame_count width height : Z) (video_id : string) (target_fps : Q)
  : option Summary * Store :=
  match video_path <- save_uploaded_video video_id ;;
        video_info <- get_video_info Frame video_path video frame_count
                        width height ;;
        frames <- extract_frames Frame video_path video target_fps ;;
        Ok (video_info, frames) with
  | Err _ => (None, st)
  | Ok (_, []) => (None, st)
  | Ok (video_info, frames) =>
    match map_r caption_frame frames with
    | Err _ => (None, st)
    | Ok frame_records =>
      match index_video_frames embeddings_fn st video_id frame_records with
      | (Err _, st') => (None, st')
      | (Ok num_indexed, st') =>
        (Some {| s_video_id := video_id;
                 s_num_frames := length frames;
                 s_fps := target_fps;
                 s_duration := vi_duration video_info;
                 s_video_info := video_info;
                 s_num_indexed := num_indexed |}, st')
      end
    end
  end.

End ProcessVideoPipeline.

(** ** [SceneDetector._get_embeddings] *)

Module SceneDetector.

Section GetEmbeddings.

Variable Frame Row : Type.
(** The CLIP processor and [get_image_features] on one batch, followed by
    the L2 normalisation: the rows of [embeds]; it may raise. *)
Variable encode_batch : list Frame -> result (list Row).

(** The slices [frames[i:i+batch_size]] of the loop
    [for i in range(0, len(frames), batch_size)]; [fuel] bounds the number
    of iterations. *)
Fixpoint batches (fuel batch_size : nat) (frames : list Frame)
  : list (list Frame) :=
  match fuel, frames with
  | O, _ => []
  | _, [] => []
  | S fuel', _ =>
    firstn batch_size frames :: batches fuel' batch_size (skipn batch_size frames)
  end.

(** [_get_embeddings(frames, batch_size=32)]: [np.vstack(embeddings)],
    which raises on an empty list. *)
Definition get_embeddings (frames : list Frame) : result (list Row) :=
  embeddings <- map_r encode_batch (batches (length frames) 32 frames) ;;
  match embeddings with
  | [] => Err (ValueError "need at least one array to concatenate"%string)
  | _ => Ok (concat embeddings)
  end.

End GetEmbeddings.

End SceneDetector.

(** ** [llm_client.generate_answer] *)

(** [config.OLLAMA_LLM_MODEL] (its default). *)
Definition OLLAMA_LLM_MODEL : string := "llama3:instruct".

(** [config.SYSTEM_PROMPT_TEMPLATE.format(context=context,
    question=question)] *)
Definition SYSTEM_PROMPT_TEMPLATE_format (context question : string) : string :=
  ("You are an expert security analyst and video intelligence assistant.
Your task is to answer questions about a video based on the provided frame descriptions.

CONTEXT FROM VIDEO FRAMES:
" ++ context ++ "

INSTRUCTIONS:
1. Analyze the provided frame descriptions carefully.
2. Synthesize information across multiple frames to understand the sequence of events.
3. If the answer is explicitly found in the descriptions, provide a clear and concise answer.
4. If the answer can be inferred from the sequence of frames, explain your reasoning.
5. If the information is missing or ambiguous, state clearly what you know and what is unknown.
6. Do not hallucinate details not present in the descriptions.

User question: " ++ question ++ "

Answer:")%string.

(** [str.isspace()] on one character of an ASCII string: tab, line feed,
    vertical tab, form feed, carriage return, the separators
    [\x1c]..[\x1f] and space. *)
Definition is_space (c : Ascii.ascii) : bool :=
  let n := Ascii.nat_of_ascii c in
  ((9 <=? n) && (n <=? 13) || (28 <=? n) && (n <=? 32))%nat.

Fixpoint lstrip_chars (l : list Ascii.ascii) : list Ascii.ascii :=
  match l with
  | [] => []
  | c :: l' => if is_space c then lstrip_chars l' else l
  end.

(** [s.strip()] *)
Definition strip (s : string) : string :=
  string_of_list_ascii
    (rev (lstrip_chars (rev (lstrip_chars (list_ascii_of_string s))))).

(** The JSON payload [{"model": ..., "prompt": full_prompt,
    "stream": False}]. *)
Definition generate_request (full_prompt : string) : json :=
  JObj [("model"%string, JStr OLLAMA_LLM_MODEL);
        ("prompt"%string, JStr full_prompt);
        ("stream"%string, JBool false)].

Section GenerateAnswer.

(** The server behind [f"{config.OLLAMA_BASE_URL}/api/generate"]. *)
Variable post : json -> http_response.

(** [generate_answer(question, context)]: as [get_embedding], with
    [result["response"].strip()] at the end. *)
Definition generate_answer (question context : string) : result string :=
  let full_prompt := SYSTEM_PROMPT_TEMPLATE_format context question in
  match post (generate_request full_prompt) with
  | HttpUnreachable => Err RequestException
  | HttpReply status body =>
    if ((400 <=? status) && (status <? 600))%Z then Err RequestException
    else
      match body with
      | None => Err RequestException
      | Some result =>
        present <- py_contains "response"%string result ;;
        if negb present
        then Err (ValueError "No response returned from Ollama LLM"%string)
        else
          r <- py_getitem result "response"%string ;;
          match r with
          | JStr s => Ok (strip s)
          | _ => Err AttributeError
          end
      end
  end.

End GenerateAnswer.

(** ** [check_ollama_available], [test_ollama_models] and
    [main.check_system_ready] *)

(** [check_ollama_available()], given what [GET /api/tags] yields. *)
Definition check_ollama_available (tags : http_response) : bool :=
  match tags with
  | HttpUnreachable => false
  | HttpReply status _ => (status =? 200)%Z
  end.

(** A call inside [try: ... except: pass]: did it return? *)
Definition succeeded {A} (r : result A) : bool :=
  match r with Ok _ => true | Err _ => false end.

(** The dict returned by [test_ollama_models]. *)
Record ModelStatus := {
  ms_server : bool;
  ms_embedding_model : bool;
  ms_llm_model : bool
}.

Section SystemReady.

(** The three endpoints of the Ollama server. *)
Variable tags : http_response.
Variable post_embeddings : json -> http_response.
Variable post_generate : json -> http_response.

(** [test_ollama_models()] *)
Definition test_ollama_models : ModelStatus :=
  let server := check_ollama_available tags in
  if negb server
  then {| ms_server := false; ms_embedding_model := false;
          ms_llm_model := false |}
  else {| ms_server := true;
          ms_embedding_model :=
            succeeded (get_embedding post_embeddings "test"%string);
          ms_llm_model :=
            succeeded (generate_answer post_generate "test question"%string
                         "test context"%string) |}.

(** The three messages of [check_system_ready], by what they report. *)
Inductive issue :=
| OllamaNotRunning
| EmbeddingModelMissing (model : string)
| LLMModelMissing (model : string).

(** [check_system_ready()] *)
Definition check_system_ready : list issue :=
  (if negb (check_ollama_available tags) then [OllamaNotRunning] else []) ++
  let model_status := test_ollama_models in
  (if negb (ms_embedding_model model_status)
   then [EmbeddingModelMissing OLLAMA_EMBEDDING_MODEL] else []) ++
  (if negb (ms_llm_model model_status)
   then [LLMModelMissing OLLAMA_LLM_MODEL] else []).

(** [disabled=(uploaded_file is None or bool(system_issues))] of the
    "Process Video" button, negated. *)
Definition process_enabled (uploaded : bool) : bool :=
  uploaded && match check_system_ready with [] => true | _ => false end.

End SystemReady.

(** ** [AudioProcessor.process_video] *)

(** How the audio extraction ended: [VideoFileClip] or [write_audiofile]
    raised, the clip has no audio track, or the audio file was written. *)
Inductive audio_extraction :=
| ExtractionFailed
| NoAudioTrack
| AudioWritten.

(** The dict appended for one transcript segment. *)
Record AudioSegment := {
  a_caption : string;
  a_timestamp_seconds : Q;
  a_timestamp_str : string;
  a_frame_index : Z;
  a_type : string
}.

(** The loop over [result["segments"]], each given by its ["start"] and
    ["text"]; [AudioProcessor._format_timestamp] is the same code as
    [SceneDetector._format_timestamp]. *)
Fixpoint audio_segments (segments : list (Q * string)) : list AudioSegment :=
  match segments with
  | [] => []
  | (start, raw) :: rest =>
    let text := strip raw in
    if String.eqb text "" then audio_segments rest
    else {| a_caption := ("[AUDIO TRANSCRIPT] " ++ text)%string;
            a_timestamp_seconds := start;
            a_timestamp_str := format_timestamp start;
            a_frame_index := -1;
            a_type := "audio"%string |} :: audio_segments rest
  end.

(** [process_video(video_path)]: [audio_exists] is
    [os.path.exists(audio_path)], [transcription] the segments of
    [self.model.transcribe(audio_path)] or the exception it raised; every
    exception is caught and gives [[]]. *)
Definition process_video (extraction : audio_extraction) (audio_exists : bool)
  (transcription : result (list (Q * string))) : list AudioSegment :=
  match extraction with
  | ExtractionFailed | NoAudioTrack => []
  | AudioWritten =>
    if negb audio_exists then []
    else
      match transcription with
      | Err _ => []
      | Ok segments => audio_segments segments
      end
  end.

(** The fields of a segment dict that [index_video_frames] reads. *)
Definition audio_record (a : AudioSegment) : FrameRecord :=
  {| frame_index := a_frame_index a;
     timestamp_seconds := a_timestamp_seconds a;
     timestamp_str := a_timestamp_str a;
     caption := a_caption a |}.

(** ** Concrete inputs used by the examples below *)

Module Demo.
Open Scope string_scope.

(** A deterministic embedder: the length of the text. *)
Definition embed (s : string) : result (list Q) :=
  Ok [inject_Z (Z.of_nat (String.length s))].

Definition rec0 := {| frame_index := 0; timestamp_seconds := 0;
  timestamp_str := "00:00:00"; caption := "a car enters" |}.
Definition rec1 := {| frame_index := 1; timestamp_seconds := 5;
  timestamp_str := "00:00:05"; caption := "a car parked" |}.
Definition rec2 := {| frame_index := 2; timestamp_seconds := 10;
  timestamp_str := "00:00:10"; caption := "a person walks by" |}.

(** Two transcript segments as [AudioProcessor.process_video] builds them:
    both carry the special [frame_index] [-1]. *)
Definition audio0 := {| frame_index := -1; timestamp_seconds := 3 # 2;
  timestamp_str := "00:00:01"; caption := "[AUDIO TRANSCRIPT] hello" |}.
Definition audio1 := {| frame_index := -1; timestamp_seconds := 4;
  timestamp_str := "00:00:04"; caption := "[AUDIO TRANSCRIPT] goodbye" |}.

(** An embedder that becomes unreachable on the second record of [v1]. *)
Definition flaky_embed (s : string) : result (list Q) :=
  if String.eqb s "Video v1, time 00:00:05: a car parked"
  then Err RequestException else embed s.

(** A collection holding three frames of [v1] and one of [v2]. *)
Definition store : Store :=
  snd (index_video_frames embed
         (snd (index_video_frames embed [] "v1" [rec0; rec1; rec2]))
         "v2" [rec0]).

(** An embedding service replying [{"error": "model not found"}]. *)
Definition no_embedding_server (_ : json) : http_response :=
  HttpReply 200 (Some (JObj [("error", JStr "model not found")])).

Definition question : string := "Where is the car?".

(** What [query_video] returns for [question] on [store]. *)
Definition results_v1 : list QueryResult :=
  Eval vm_compute in
  match query_video embed store "v1" question 3 with
  | Ok r => r | Err _ => [] end.

Definition results_v2 : list QueryResult :=
  Eval vm_compute in
  match query_video embed store "v2" question 3 with
  | Ok r => r | Err _ => [] end.

(** Two frames of [v5] whose embeddings are [0] and [10^-9]; the question
    embeds at [0], so their distances are [0] and [10^-18]. *)
Definition tiny_embed (s : string) : result (list Q) :=
  if String.eqb s "Video v5, time 00:00:05: a car parked"
  then Ok [1 # 1000000000] else Ok [0].

Definition tiny_store : Store :=
  snd (index_video_frames tiny_embed [] "v5" [rec0; rec1]).

Definition results_v5 : list QueryResult :=
  Eval vm_compute in
  match query_video tiny_embed tiny_store "v5" question 3 with
  | Ok r => r | Err _ => [] end.

(** A collection whose reply lists one metadata and no distances. *)
Definition meta0 : Metadata :=
  {| md_video_id := "v1"; md_frame_index := 0; md_timestamp_seconds := 0;
     md_timestamp_str := "00:00:00"; md_caption := "a car enters" |}.
Definition no_distance_query (_ : list Q) (_ : Z) (_ : string)
  : result Response :=
  Ok {| r_metadatas := Some [[meta0]]; r_distances := None |}.

(** Stand-ins for the CLIP encoder and for k-means: one dummy row per
    frame, and centre [j] nearest to sample [j]. *)
Definition clip (fs : list nat) : list unit := map (fun _ => tt) fs.
Definition closest (k : nat) (_ : list unit) : list nat := seq 0 k.

(** Four decoded frames at 2 fps. *)
Definition video : Video nat :=
  {| v_opened := true; v_fps := 2;
     v_frames := [(10%nat, 0); (11%nat, 500); (12%nat, 1000); (13%nat, 1500)] |}.

Definition buf : list (nat * Q * Z) :=
  Eval vm_compute in
  match sample nat 2 0 (frames_of nat video) with
  | Ok b => b | Err _ => [] end.

(** A completion service that always answers. *)
Definition answer (q c : string) : result string := Ok "ok".

(** An upload that is saved, and a captioner that always answers. *)
Definition save (video_id : string) : result string :=
  Ok ("data/videos/" ++ video_id ++ ".mp4").
Definition caption_all (_ : nat) : result string := Ok "a car parked".

(** A video that does not open, and one that reports [0] fps. *)
Definition closed_video : Video nat :=
  {| v_opened := false; v_fps := 2; v_frames := [] |}.
Definition zero_fps_video : Video nat :=
  {| v_opened := true; v_fps := 0; v_frames := [(10%nat, 0)] |}.

(** A batch encoder that maps each image to its own row. *)
Definition encode_batch (b : list nat) : result (list nat) := Ok (map S b).

(** Ollama endpoints that answer. *)
Definition tags_up : http_response := HttpReply 200 None.
Definition embedding_server (_ : json) : http_response :=
  HttpReply 200 (Some (JObj [("embedding", JArr [JNum 1; JNum 2])])).
Definition llm_server (_ : json) : http_response :=
  HttpReply 200 (Some (JObj [("model", JStr "llama3:instruct");
                             ("response", JStr (String.append "  A red car." newline))])).
Definition context : string := "[Frame 1] time=00:00:05".

(** A static video: four identical decoded frames at 2 fps. *)
Definition static_video : Video nat :=
  {| v_opened := true; v_fps := 2;
     v_frames := [(10%nat, 0); (10%nat, 500); (10%nat, 1000); (10%nat, 1500)] |}.

(** An encoder that is a function of the image: equal frames, equal rows. *)
Definition clip_rows (fs : list nat) : list (list Q) :=
  map (fun f => [inject_Z (Z.of_nat f)]) fs.

(** [pairwise_distances_argmin]: for each centre, the first index of a
    nearest row ([numpy.argmin] keeps the first minimum; the squared
    distance has the same minima as the Euclidean one). *)
Fixpoint argmin_from (c : list Q) (es : list (list Q)) (i best : nat) (bd : Q)
  : nat :=
  match es with
  | [] => best
  | e :: es' =>
    if F64.Qltb (Chroma.l2 c e) bd then argmin_from c es' (S i) i (Chroma.l2 c e)
    else argmin_from c es' (S i) best bd
  end.

Definition argmin (c : list Q) (es : list (list Q)) : nat :=
  match es with
  | [] => 0%nat
  | e :: es' => argmin_from c es' 1 0 (Chroma.l2 c e)
  end.

Definition pairwise_distances_argmin (centres es : list (list Q)) : list nat :=
  map (fun c => argmin c es) centres.

(** K-means on rows that are all equal: each centre is a mean of copies of
    that row (k-means++ can only seed at it), so every centre is the row. *)
Definition kmeans_centres_equal_rows (k : nat) (es : list (list Q))
  : list (list Q) :=
  repeat (hd [] es) k.

Definition closest_equal_rows (k : nat) (es : list (list Q)) : list nat :=
  pairwise_distances_argmin (kmeans_centres_equal_rows k es) es.

(** A transcript with a blank segment between two spoken ones. *)
Definition transcript : list (Q * string) :=
  [(3 # 2, "  hello "); (2, "   "); (4, "goodbye")].

End Demo.

(** * Properties *)

(** ** Sorting and distances of the collection *)

(** ** Rounding to binary64 *)

Module F64Facts.
Import F64.

Lemma Qltb_true : forall a b, Qltb a b = true -> a < b.
Proof.
  intros a b H. unfold Qltb in H. apply negb_true_iff in H.
  apply Qnot_le_lt. intros C. apply Qle_bool_iff in C. congruence.
Qed.

Lemma Qltb_ge : forall a b, b <= a -> Qltb a b = false.
Proof.
  intros a b H. unfold Qltb. apply negb_false_iff, Qle_bool_iff, H.
Qed.

Lemma Qltb_false : forall a b, Qltb a b = false -> b <= a.
Proof.
  intros a b H. unfold Qltb in H. apply negb_false_iff in H.
  apply Qle_bool_iff, H.
Qed.

Lemma Qabs_cases : forall t, (Qabs t == t /\ 0 <= t) \/ (Qabs t == - t /\ t <= 0).
Proof.
  intros t. destruct (Qlt_le_dec t 0) as [H|H].
  - right. split; [apply Qabs_neg|]; lra.
  - left. split; [apply Qabs_pos|]; lra.
Qed.

Lemma pow2_pos : forall e, 0 < pow2 e.
Proof. intros e. apply Qpower_0_lt. reflexivity. Qed.

Lemma pow2_add : forall a b, pow2 (a + b) == pow2 a * pow2 b.
Proof. intros a b. apply Qpower_plus. discriminate. Qed.

Lemma pow2_Z : forall a, (0 <= a)%Z -> pow2 a == inject_Z (2 ^ a).
Proof. intros a Ha. unfold pow2. rewrite Zpower_Qpower by exact Ha. reflexivity. Qed.

Lemma pow2_le : forall a b, (a <= b)%Z -> pow2 a <= pow2 b.
Proof.
  intros a b H. replace b with (a + (b - a))%Z by lia.
  rewrite pow2_add, (pow2_Z (b - a)) by lia.
  pose proof (pow2_pos a).
  assert (1 <= inject_Z (2 ^ (b - a))).
  { change 1 with (inject_Z 1). rewrite <- Zle_Qle.
    pose proof (Z.pow_pos_nonneg 2 (b - a)). lia. }
  nra.
Qed.

Lemma pow2_lt : forall a b, (a < b)%Z -> pow2 a < pow2 b.
Proof.
  intros a b H. replace b with (a + (b - a))%Z by lia.
  rewrite pow2_add, (pow2_Z (b - a)) by lia.
  pose proof (pow2_pos a).
  assert (2 <= inject_Z (2 ^ (b - a))).
  { change 2 with (inject_Z 2). rewrite <- Zle_Qle.
    replace (b - a)%Z with (Z.succ (b - a - 1)) by lia.
    rewrite Z.pow_succ_r by lia.
    pose proof (Z.pow_pos_nonneg 2 (b - a - 1)). lia. }
  nra.
Qed.

Lemma pow2_inv : forall a, pow2 (- a) * pow2 a == 1.
Proof.
  intros a. rewrite <- pow2_add. replace (- a + a)%Z with 0%Z by lia. reflexivity.
Qed.

Lemma ilog2_spec : forall x, 0 < x ->
  pow2 (ilog2 x) <= x /\ x < pow2 (ilog2 x + 1).
Proof.
  intros [n d] Hx. unfold ilog2. cbn [Qnum Qden].
  assert (Hn : (0 < n)%Z).
  { unfold Qlt in Hx. simpl in Hx. lia. }
  set (a := Z.log2 n). set (b := Z.log2 (Z.pos d)).
  destruct (Z.log2_spec n Hn) as [Hn1 Hn2]. fold a in Hn1, Hn2.
  destruct (Z.log2_spec (Z.pos d) eq_refl) as [Hd1 Hd2]. fold b in Hd1, Hd2.
  assert (Ha : (0 <= a)%Z) by apply Z.log2_nonneg.
  assert (Hb : (0 <= b)%Z) by apply Z.log2_nonneg.
  rewrite Z.pow_succ_r in Hn2, Hd2 by lia.
  assert (Hx' : n # d == inject_Z n * / inject_Z (Z.pos d))
    by (rewrite Qmake_Qdiv; reflexivity).
  assert (HN1 : pow2 a <= inject_Z n)
    by (rewrite pow2_Z by lia; rewrite <- Zle_Qle; lia).
  assert (HN2 : inject_Z n < 2 * pow2 a)
    by (rewrite pow2_Z by lia; change 2 with (inject_Z 2);
        rewrite <- inject_Z_mult, <- Zlt_Qlt; lia).
  assert (HD1 : pow2 b <= inject_Z (Z.pos d))
    by (rewrite pow2_Z by lia; rewrite <- Zle_Qle; lia).
  assert (HD2 : inject_Z (Z.pos d) < 2 * pow2 b)
    by (rewrite pow2_Z by lia; change 2 with (inject_Z 2);
        rewrite <- inject_Z_mult, <- Zlt_Qlt; lia).
  set (N := inject_Z n) in *. set (D := inject_Z (Z.pos d)) in *.
  set (iD := / D).
  assert (HDpos : 0 < D) by (unfold D, Qlt; simpl; lia).
  assert (HiD : D * iD == 1) by (apply Qmult_inv_r; lra).
  assert (Hpe : forall c, pow2 (a - b + c) * pow2 b == pow2 a * pow2 c).
  { intros c. rewrite <- !pow2_add. replace (a - b + c + b)%Z with (a + c)%Z by lia.
    reflexivity. }
  pose proof (Hpe 0%Z) as H0. pose proof (Hpe (-1)%Z) as Hm1. pose proof (Hpe 1%Z) as H1.
  replace (a - b + 0)%Z with (a - b)%Z in H0 by lia.
  replace (a - b + -1)%Z with (a - b - 1)%Z in Hm1 by lia.
  replace (a - b + 1)%Z with (a - b + 1)%Z in H1 by lia.
  assert (E0 : pow2 0 == 1) by reflexivity.
  assert (Em1 : pow2 (-1) == 1 # 2) by reflexivity.
  assert (E1 : pow2 1 == 2) by reflexivity.
  rewrite E0 in H0. rewrite Em1 in Hm1. rewrite E1 in H1.
  pose proof (pow2_pos a). pose proof (pow2_pos b).
  pose proof (pow2_pos (a - b)). pose proof (pow2_pos (a - b - 1)).
  pose proof (pow2_pos (a - b + 1)).
  assert (HiDp : 0 < iD) by (unfold iD; apply Qinv_lt_0_compat; lra).
  (* x * D == N *)
  assert (HxD : (n # d) * D == N).
  { rewrite Hx'. fold iD. rewrite <- Qmult_assoc, (Qmult_comm iD D), HiD. apply Qmult_1_r. }
  set (x := n # d) in *.
  (* bounds: pow2 (a-b-1) < x < pow2 (a-b+1) *)
  assert (L : pow2 (a - b - 1) < x).
  { assert (pow2 (a - b - 1) * D < x * D) by nra.
    nra. }
  assert (U : x < pow2 (a - b + 1)) by nra.
  destruct (Qltb x (pow2 (a - b))) eqn:C.
  - apply Qltb_true in C. replace (a - b - 1 + 1)%Z with (a - b)%Z by lia. lra.
  - apply Qltb_false in C. lra.
Qed.

Lemma floor_bounds : forall m, inject_Z (Qfloor m) <= m /\ m < inject_Z (Qfloor m) + 1.
Proof.
  intros m. split; [apply Qfloor_le|].
  pose proof (Qlt_floor m) as H. rewrite inject_Z_plus in H. exact H.
Qed.

Lemma rhe_range : forall m,
  (Qfloor m <= round_half_even m <= Qfloor m + 1)%Z.
Proof.
  intros m. unfold round_half_even.
  destruct (Qltb _ _); [lia|]. destruct (Qltb _ _); [lia|].
  destruct (Z.even _); lia.
Qed.

Lemma rhe_near : forall m z,
  Qabs (m - inject_Z (round_half_even m)) <= Qabs (m - inject_Z z).
Proof.
  intros m z.
  destruct (floor_bounds m) as [L U].
  set (lo := Qfloor m) in *.
  assert (Hz : inject_Z z <= inject_Z lo \/ inject_Z lo + 1 <= inject_Z z).
  { destruct (Z.le_gt_cases z lo) as [H|H]; [left; rewrite <- Zle_Qle; exact H|].
    right. change 1 with (inject_Z 1). rewrite <- inject_Z_plus, <- Zle_Qle. lia. }
  assert (Hr : (inject_Z (round_half_even m) == inject_Z lo /\ m - inject_Z lo <= 1 # 2)
            \/ (inject_Z (round_half_even m) == inject_Z lo + 1 /\ 1 # 2 <= m - inject_Z lo)).
  { unfold round_half_even. fold lo.
    destruct (Qltb (m - inject_Z lo) (1 # 2)) eqn:C1.
    - apply Qltb_true in C1. left. split; [reflexivity|lra].
    - apply Qltb_false in C1.
      destruct (Qltb (1 # 2) (m - inject_Z lo)) eqn:C2.
      + right. split; [rewrite inject_Z_plus; reflexivity|lra].
      + apply Qltb_false in C2. destruct (Z.even lo).
        * left. split; [reflexivity|lra].
        * right. split; [rewrite inject_Z_plus; reflexivity|lra]. }
  set (r := inject_Z (round_half_even m)) in *. set (Z0 := inject_Z z) in *.
  set (L0 := inject_Z lo) in *.
  destruct (Qabs_cases (m - r)) as [[A1 A2]|[A1 A2]];
  destruct (Qabs_cases (m - Z0)) as [[B1 B2]|[B1 B2]];
  rewrite A1, B1; lra.
Qed.

Lemma div_mul_pow2 : forall x e, x == x / pow2 e * pow2 e.
Proof.
  intros x e. pose proof (pow2_pos e).
  unfold Qdiv. rewrite <- Qmult_assoc, (Qmult_comm (/ _)), Qmult_inv_r
    by (intro; lra).
  symmetry. apply Qmult_1_r.
Qed.

Lemma round_pos_nearest : forall x f, 0 < x -> is_double f ->
  Qabs (x - round_pos x) <= Qabs (x - f).
Proof.
  intros x f Hx [k [j [Hk [Hj Hf]]]].
  destruct (ilog2_spec x Hx) as [L U].
  unfold round_pos. set (e := exponent x). set (E := ilog2 x) in *.
  set (m := x / pow2 e). pose proof (pow2_pos e) as He.
  assert (Hxm : x == m * pow2 e) by apply div_mul_pow2.
  assert (Hdiff : forall z, Qabs (x - inject_Z z * pow2 e) == Qabs (m - inject_Z z) * pow2 e).
  { intros z.
    assert (x - inject_Z z * pow2 e == (m - inject_Z z) * pow2 e) as -> by (rewrite Hxm; ring).
    rewrite Qabs_Qmult, (Qabs_pos (pow2 e)) by lra. reflexivity. }
  rewrite Hdiff.
  destruct (Z.le_gt_cases e j) as [Hej|Hej].
  - assert (Hf' : f == inject_Z (k * 2 ^ (j - e)) * pow2 e).
    { rewrite Hf, inject_Z_mult, <- (pow2_Z (j - e)) by lia.
      rewrite <- Qmult_assoc, <- pow2_add. replace (j - e + e)%Z with j by lia.
      reflexivity. }
    rewrite Hf', Hdiff. apply Qmult_le_compat_r; [apply rhe_near|lra].
  - assert (HeE : e = (E - 52)%Z) by (unfold e, exponent, emin in *; fold E; lia).
    assert (Hk' : inject_Z k <= inject_Z (2 ^ 53)) by (rewrite <- Zle_Qle; lia).
    pose proof (pow2_pos j).
    assert (H53 : pow2 (53 + j) == inject_Z (2 ^ 53) * pow2 j)
      by (rewrite pow2_add, (pow2_Z 53) by lia; reflexivity).
    pose proof (pow2_le (53 + j) E ltac:(lia)).
    assert (HfE : f <= pow2 E) by (rewrite Hf; nra).
    assert (H52 : pow2 E == inject_Z (2 ^ 52) * pow2 e).
    { rewrite <- (pow2_Z 52) by lia. rewrite <- pow2_add. rewrite HeE.
      replace (52 + (E - 52))%Z with E by lia. reflexivity. }
    assert (Hm52 : inject_Z (2 ^ 52) <= m) by nra.
    pose proof (rhe_near m (2 ^ 52)) as Hn.
    rewrite (Qabs_pos (m - inject_Z (2 ^ 52))) in Hn by lra.
    pose proof (Qle_Qabs (x - f)).
    apply Qle_trans with ((m - inject_Z (2 ^ 52)) * pow2 e);
      [apply Qmult_le_compat_r; lra|nra].
Qed.

Lemma round_pos_double : forall x, 0 < x -> is_double (round_pos x).
Proof.
  intros x Hx. destruct (ilog2_spec x Hx) as [L U].
  unfold round_pos. set (e := exponent x). set (E := ilog2 x) in *.
  set (m := x / pow2 e). pose proof (pow2_pos e) as He.
  exists (round_half_even m), e.
  assert (HeE : (E - 52 <= e)%Z /\ (emin <= e)%Z)
    by (unfold e, exponent; fold E; lia).
  split; [|split; [lia|reflexivity]].
  assert (Hm0 : 0 < m) by (apply Qlt_shift_div_l; lra).
  assert (HmU : m < inject_Z (2 ^ 53)).
  { apply Qlt_le_trans with (pow2 (E + 1 - e)).
    - apply Qlt_shift_div_r; [exact He|].
      rewrite <- pow2_add. replace (E + 1 - e + e)%Z with (E + 1)%Z by lia. exact U.
    - rewrite <- (pow2_Z 53) by lia. apply pow2_le. lia. }
  destruct (floor_bounds m) as [FL FU].
  pose proof (rhe_range m).
  assert (0 <= Qfloor m)%Z.
  { change 0%Z with (Qfloor 0). apply Qfloor_resp_le. lra. }
  assert (Qfloor m < 2 ^ 53)%Z by (rewrite Zlt_Qlt; lra).
  lia.
Qed.

Lemma is_double_Qeq : forall x y, x == y -> is_double x -> is_double y.
Proof.
  intros x y E [k [j [H1 [H2 H3]]]]. exists k, j. split; [exact H1|].
  split; [exact H2|]. rewrite <- E. exact H3.
Qed.

Lemma round_Qeq : forall x y, x == y -> round x = round y.
Proof. intros x y E. unfold round. now rewrite (Qred_complete x y E). Qed.

Lemma round_pos_eq : forall x, 0 < x -> round x == round_pos (Qred x).
Proof.
  intros x Hx. unfold round.
  assert (Hr : 0 < Qred x) by (rewrite Qred_correct; exact Hx).
  destruct (Qltb 0 (Qred x)) eqn:C.
  - apply Qred_correct.
  - apply Qltb_false in C. lra.
Qed.

Lemma round_nearest : forall x f, 0 < x -> is_double f ->
  Qabs (x - round x) <= Qabs (x - f).
Proof.
  intros x f Hx Hf. rewrite round_pos_eq by exact Hx.
  assert (Hr : 0 < Qred x) by (rewrite Qred_correct; exact Hx).
  pose proof (round_pos_nearest (Qred x) f Hr Hf) as H.
  set (r := round_pos (Qred x)) in *. rewrite Qred_correct in H. exact H.
Qed.

Lemma round_double : forall x, 0 < x -> is_double (round x).
Proof.
  intros x Hx. apply (is_double_Qeq (round_pos (Qred x))).
  - symmetry. apply round_pos_eq, Hx.
  - apply round_pos_double. rewrite Qred_correct. exact Hx.
Qed.

Lemma round_exact : forall x, 0 < x -> is_double x -> round x == x.
Proof.
  intros x Hx Hd. pose proof (round_nearest x x Hx Hd) as H.
  setoid_replace (x - x) with 0 in H by ring. simpl in H.
  destruct (Qabs_cases (x - round x)) as [[A B]|[A B]]; rewrite A in H; lra.
Qed.

Lemma round_zero : forall x, x == 0 -> round x = 0.
Proof. intros x E. rewrite (round_Qeq x 0 E). reflexivity. Qed.

Lemma round_mono : forall x y, 0 < x -> x <= y -> round x <= round y.
Proof.
  intros x y Hx Hxy. assert (Hy : 0 < y) by lra.
  destruct (Qlt_le_dec (round y) (round x)) as [C|C]; [|exact C].
  exfalso.
  pose proof (round_nearest x (round y) Hx (round_double y Hy)) as N1.
  pose proof (round_nearest y (round x) Hy (round_double x Hx)) as N2.
  set (a := round y) in *. set (b := round x) in *.
  assert (E : x == y).
  { destruct (Qabs_cases (x - b)) as [[A1 A2]|[A1 A2]];
    destruct (Qabs_cases (x - a)) as [[B1 B2]|[B1 B2]];
    destruct (Qabs_cases (y - a)) as [[C1 C2]|[C1 C2]];
    destruct (Qabs_cases (y - b)) as [[D1 D2]|[D1 D2]];
    rewrite ?A1, ?B1 in N1; rewrite ?C1, ?D1 in N2; lra. }
  unfold a, b in C. rewrite (round_Qeq x y E) in C. lra.
Qed.

Lemma round_one : round 1 = 1.
Proof. reflexivity. Qed.

Lemma round_ge_1 : forall x, 1 <= x -> 1 <= round x.
Proof. intros x H. rewrite <- round_one at 1. apply round_mono; lra. Qed.


Lemma Qred_inject_Z : forall z, Qred (inject_Z z) = inject_Z z.
Proof.
  intros z. unfold Qred, inject_Z. cbn [Qnum Qden].
  destruct (Z.ggcd z 1) as [g [a b]] eqn:E.
  pose proof (Z.ggcd_gcd z 1) as G. rewrite E, Z.gcd_1_r in G. simpl in G.
  pose proof (Z.ggcd_correct_divisors z 1) as D. rewrite E in D.
  destruct D as [D1 D2]. subst g. rewrite Z.mul_1_l in D1, D2. subst. reflexivity.
Qed.

Lemma Qred_involutive : forall x, Qred (Qred x) = Qred x.
Proof. intros x. apply Qred_complete, Qred_correct. Qed.

Lemma round_exact_red : forall x, 0 <= x -> is_double x -> round x = Qred x.
Proof.
  intros x H0 Hd. destruct (Qlt_le_dec 0 x) as [Hx|Hx].
  - pose proof (round_exact x Hx Hd) as E.
    assert (R : round x = Qred (round x))
      by (unfold round; symmetry; apply Qred_involutive).
    rewrite R. apply Qred_complete, E.
  - assert (E : x == 0) by lra.
    rewrite (round_zero x E), (Qred_complete x 0 E). reflexivity.
Qed.

Lemma trunc_floor : forall q, 0 <= q -> trunc q = Qfloor q.
Proof.
  intros [n d] H. unfold trunc, Qfloor. cbn [Qnum Qden].
  unfold Qle in H. simpl in H. apply Z.quot_div_nonneg; lia.
Qed.

Lemma Qfloor_Qeq : forall x y, x == y -> Qfloor x = Qfloor y.
Proof.
  intros x y E. apply Z.le_antisymm; apply Qfloor_resp_le; rewrite E; apply Qle_refl.
Qed.

Lemma is_double_int : forall z, (Z.abs z <= 2 ^ 53)%Z -> is_double (inject_Z z).
Proof.
  intros z H. exists z, 0%Z. split; [exact H|]. split; [unfold emin; lia|].
  unfold pow2. simpl. ring.
Qed.

(** The remainder [x - p * k] of a non-negative double below [2^53] by an
    integer, when it lies in [[0, x]], is a double: [fmod] is exact. *)
Lemma fmod_double : forall x p k,
  is_double x -> 0 <= x -> x < inject_Z (2 ^ 53) ->
  0 <= x - inject_Z p * inject_Z k -> x - inject_Z p * inject_Z k <= x ->
  is_double (x - inject_Z p * inject_Z k).
Proof.
  intros x p k [K [j [HK [Hj Hx]]]] H0 H53 Hr0 Hrx.
  destruct (Z_le_gt_dec 0 j) as [Hj0|Hj0].
  - assert (Ex : x == inject_Z (K * 2 ^ j))
      by (rewrite Hx, inject_Z_mult, (pow2_Z j) by lia; reflexivity).
    assert (Er : x - inject_Z p * inject_Z k == inject_Z (K * 2 ^ j - p * k))
      by (rewrite Ex, <- inject_Z_mult; unfold Qminus, Z.sub;
          rewrite inject_Z_plus, inject_Z_opp; reflexivity).
    apply (is_double_Qeq (inject_Z (K * 2 ^ j - p * k))); [symmetry; exact Er|].
    apply is_double_int.
    assert (0 <= inject_Z (K * 2 ^ j - p * k)) by (rewrite <- Er; exact Hr0).
    assert (inject_Z (K * 2 ^ j - p * k) < inject_Z (2 ^ 53)) by (rewrite <- Er; lra).
    change 0 with (inject_Z 0) in *. rewrite <- Zle_Qle in *. rewrite <- Zlt_Qlt in *.
    lia.
  - set (K' := (K - p * k * 2 ^ (- j))%Z).
    pose proof (pow2_pos j) as Pj.
    assert (Ep : inject_Z (2 ^ (- j)) * pow2 j == 1).
    { rewrite <- (pow2_Z (- j)) by lia. rewrite <- pow2_add.
      replace (- j + j)%Z with 0%Z by lia. reflexivity. }
    assert (Er : x - inject_Z p * inject_Z k == inject_Z K' * pow2 j).
    { unfold K'. rewrite Hx. unfold Zminus. rewrite inject_Z_plus, inject_Z_opp,
        !inject_Z_mult.
      setoid_replace (inject_Z p * inject_Z k) with
        (inject_Z p * inject_Z k * (inject_Z (2 ^ (- j)) * pow2 j)) at 1
        by (rewrite Ep; ring).
      ring. }
    exists K', j. split; [|split; [exact Hj|exact Er]].
    assert (A : 0 <= inject_Z K') by (rewrite Er in Hr0; nra).
    assert (B : inject_Z K' <= inject_Z K) by (rewrite Er, Hx in Hrx; nra).
    change 0 with (inject_Z 0) in A. rewrite <- Zle_Qle in A, B. lia.
Qed.

(** CPython's [divmod] of a non-negative double below [2^53] by a positive
    integer is exact: the floor of the quotient and the remainder. *)
Lemma float_div_mod_nonneg : forall x p,
  is_double x -> 0 <= x -> x < inject_Z (2 ^ 53) -> (0 < p)%Z ->
  float_div_mod x (inject_Z p)
  = (inject_Z (Qfloor (x / inject_Z p)),
     Qred (x - inject_Z p * inject_Z (Qfloor (x / inject_Z p)))).
Proof.
  intros x p Hd H0 H53 Hp.
  assert (HP : 0 < inject_Z p) by (change 0 with (inject_Z 0); rewrite <- Zlt_Qlt; exact Hp).
  assert (HP1 : 1 <= inject_Z p) by (change 1 with (inject_Z 1); rewrite <- Zle_Qle; lia).
  assert (Hq0 : 0 <= x / inject_Z p) by (apply Qle_shift_div_l; lra).
  set (k := Qfloor (x / inject_Z p)).
  destruct (floor_bounds (x / inject_Z p)) as [FL FU]. fold k in FL, FU.
  assert (Hk0 : (0 <= k)%Z)
    by (unfold k; change 0%Z with (Qfloor 0); apply Qfloor_resp_le, Hq0).
  assert (HxX : x == inject_Z p * (x / inject_Z p))
    by (rewrite Qmult_div_r by (intro; lra); reflexivity).
  set (X := x / inject_Z p) in *.
  assert (Hpk : inject_Z p * inject_Z k <= x) by nra.
  assert (Hk53 : (k < 2 ^ 53)%Z).
  { rewrite Zlt_Qlt. assert (X <= x) by nra. lra. }
  assert (Hpk53 : (0 <= p * k < 2 ^ 53)%Z).
  { split; [lia|]. rewrite Zlt_Qlt, inject_Z_mult. lra. }
  unfold float_div_mod, fmod. fold X. rewrite (trunc_floor _ Hq0). fold k.
  set (r := Qred (x - inject_Z p * inject_Z k)).
  assert (Hr : r == x - inject_Z p * inject_Z k) by apply Qred_correct.
  assert (Hr0 : 0 <= r) by lra.
  assert (Esub : sub x r = inject_Z (p * k)).
  { unfold sub. rewrite (round_Qeq (x - r) (inject_Z (p * k)))
      by (rewrite Hr, inject_Z_mult; ring).
    rewrite round_exact_red, Qred_inject_Z; [reflexivity| |].
    - change 0 with (inject_Z 0). rewrite <- Zle_Qle. lia.
    - apply is_double_int. lia. }
  assert (Ediv : div (inject_Z (p * k)) (inject_Z p) = inject_Z k).
  { unfold div. rewrite (round_Qeq _ (inject_Z k))
      by (rewrite inject_Z_mult; field; intro; lra).
    rewrite round_exact_red, Qred_inject_Z; [reflexivity| |].
    - change 0 with (inject_Z 0). rewrite <- Zle_Qle. lia.
    - apply is_double_int. lia. }
  rewrite Esub, Ediv.
  rewrite (Qltb_ge (inject_Z p) 0), (Qltb_ge r 0) by lra.
  rewrite andb_false_r. cbv beta iota zeta.
  destruct (Qeq_bool (inject_Z k) 0) eqn:E0.
  - apply Qeq_bool_iff in E0. unfold Qeq in E0. simpl in E0.
    assert (k = 0%Z) as -> by lia. reflexivity.
  - rewrite Qfloor_Z. unfold sub.
    rewrite (round_zero (inject_Z k - inject_Z k)) by ring. reflexivity.
Qed.

End F64Facts.

Module ChromaFacts.
Import Chroma.

Lemma l2_nonneg : forall x y, 0 <= l2 x y.
Proof.
  intros x y; unfold l2.
  induction (combine x y) as [|[a b] l IH]; simpl.
  - apply Qle_refl.
  - apply Qle_trans with (0 + 0); [unfold Qle; simpl; lia|].
    apply Qplus_le_compat; [|exact IH].
    destruct (a - b) as [n d]; unfold Qle; simpl; nia.
Qed.

Lemma insert_by_dist_perm : forall x l,
  Permutation (insert_by_dist x l) (x :: l).
Proof.
  intros x l; induction l as [|y l IH]; simpl; [auto|].
  destruct (Qle_bool (snd x) (snd y)); [auto|].
  eapply perm_trans; [apply perm_skip, IH|apply perm_swap].
Qed.

Lemma sort_by_dist_perm : forall l, Permutation (sort_by_dist l) l.
Proof.
  induction l as [|x l IH]; simpl; [auto|].
  eapply perm_trans; [apply insert_by_dist_perm|auto].
Qed.

Definition dist_le (p q : Entry * Q) : Prop := snd p <= snd q.

Lemma insert_by_dist_sorted : forall x l,
  Sorted dist_le l -> Sorted dist_le (insert_by_dist x l).
Proof.
  intros x l; induction l as [|y l IH]; intros Hs; simpl.
  - auto.
  - destruct (Qle_bool (snd x) (snd y)) eqn:E.
    + apply Qle_bool_iff in E. constructor; [exact Hs|constructor; exact E].
    + assert (Hyx : snd y <= snd x).
      { apply Qlt_le_weak, Qnot_le_lt; intro C;
        apply Qle_bool_iff in C; congruence. }
      apply Sorted_inv in Hs as [Hs Hh].
      constructor; [apply IH, Hs|].
      destruct l as [|z l]; simpl; [constructor; exact Hyx|].
      destruct (Qle_bool (snd x) (snd z)); constructor; [exact Hyx|].
      now inversion Hh.
Qed.

Lemma sort_by_dist_sorted : forall l, Sorted dist_le (sort_by_dist l).
Proof.
  induction l; simpl; [constructor|apply insert_by_dist_sorted; assumption].
Qed.

Lemma firstn_sorted {A} (R : A -> A -> Prop) : forall n l,
  Sorted R l -> Sorted R (firstn n l).
Proof.
  induction n as [|n IH]; intros [|x l] Hs; simpl; try constructor.
  - apply IH. now apply Sorted_inv in Hs.
  - apply Sorted_inv in Hs as [_ Hh].
    destruct n, l; simpl; constructor; now inversion Hh.
Qed.

Lemma in_firstn {A} : forall n (l : list A) x, In x (firstn n l) -> In x l.
Proof.
  intros n l x H. rewrite <- (firstn_skipn n l). apply in_or_app. now left.
Qed.

Lemma map_snd_sorted : forall l,
  Sorted dist_le l -> Sorted Qle (map snd l).
Proof.
  induction l as [|x l IH]; intros Hs; simpl; [constructor|].
  apply Sorted_inv in Hs as [Hs Hh]. constructor; [auto|].
  destruct l; simpl; constructor; now inversion Hh.
Qed.

End ChromaFacts.

(** ** [query_video] on a ChromaDB collection *)

Lemma format_from_hits : forall (h : list (Entry * Q)) pre,
  (forall p, In p h -> 0 <= snd p) ->
  format_from (Some [pre ++ map snd h]) (length pre)
    (map (fun p => e_metadata (fst p)) h) = Ok (map mk_result h).
Proof.
  induction h as [|p h IH]; intros pre Hnn; simpl; [reflexivity|].
  unfold format_one.
  rewrite nth_error_app2, Nat.sub_diag by lia. simpl.
  destruct (Qeq_bool (F64.add 1 (snd p)) 0) eqn:E.
  - exfalso. apply Qeq_bool_iff in E.
    assert (H0 := Hnn p (or_introl eq_refl)).
    assert (1 <= F64.add 1 (snd p)) by (apply F64Facts.round_ge_1; lra).
    lra.
  - specialize (IH (pre ++ [snd p]) (fun q Hq => Hnn q (or_intror Hq))).
    rewrite <- app_assoc, length_app, Nat.add_1_r in IH. simpl in IH.
    rewrite IH. reflexivity.
Qed.

Lemma query_video_chroma : forall embeddings_fn st v question top_k e,
  embeddings_fn question = Ok e -> (0 < top_k)%Z ->
  query_video embeddings_fn st v question top_k
  = Ok (map mk_result (hits st e top_k v)).
Proof.
  intros embeddings_fn st v question top_k e He Hk.
  unfold query_video, query_video_with. rewrite He. simpl.
  unfold Chroma.query. replace (top_k <=? 0)%Z with false by lia. simpl.
  unfold format_results; simpl. fold (hits st e top_k v).
  assert (Hnn : forall p, In p (hits st e top_k v) -> 0 <= snd p).
  { intros p Hp. unfold hits in Hp.
    apply ChromaFacts.in_firstn, (Permutation_in _ (ChromaFacts.sort_by_dist_perm _)),
      in_map_iff in Hp.
    destruct Hp as [x [<- _]]. apply ChromaFacts.l2_nonneg. }
  destruct (hits st e top_k v) as [|p h] eqn:Hh; [reflexivity|].
  exact (format_from_hits (p :: h) [] Hnn).
Qed.

Lemma query_video_ok_inv : forall embeddings_fn st v question top_k res,
  query_video embeddings_fn st v question top_k = Ok res ->
  exists e, embeddings_fn question = Ok e /\ (0 < top_k)%Z /\
            res = map mk_result (hits st e top_k v).
Proof.
  intros embeddings_fn st v question top_k res H.
  destruct (embeddings_fn question) as [e|err] eqn:He.
  - destruct (Z.ltb_spec 0 top_k) as [Hk|Hk].
    + exists e. repeat split; auto.
      rewrite (query_video_chroma _ _ _ _ _ e He Hk) in H. congruence.
    + unfold query_video, query_video_with in H. rewrite He in H.
      simpl in H. unfold Chroma.query in H.
      replace (top_k <=? 0)%Z with true in H by lia. discriminate.
  - unfold query_video, query_video_with in H. rewrite He in H. discriminate.
Qed.

Lemma in_hits : forall st e top_k v p,
  In p (hits st e top_k v) ->
  In (fst p) st /\ md_video_id (e_metadata (fst p)) = v /\
  snd p = Chroma.l2 e (e_embedding (fst p)).
Proof.
  intros st e top_k v p Hp. unfold hits in Hp.
  apply ChromaFacts.in_firstn, (Permutation_in _ (ChromaFacts.sort_by_dist_perm _)),
    in_map_iff in Hp.
  destruct Hp as [x [<- Hx]]. apply filter_In in Hx as [Hx Hm].
  unfold Chroma.matches in Hm. apply String.eqb_eq in Hm. simpl. auto.
Qed.

Lemma filter_no_match : forall st v,
  (forall x, In x st -> md_video_id (e_metadata x) <> v) ->
  filter (Chroma.matches v) st = [].
Proof.
  induction st as [|x st IH]; intros v H; simpl; [reflexivity|].
  unfold Chroma.matches at 1.
  destruct (String.eqb_spec (md_video_id (e_metadata x)) v) as [E|_].
  - exfalso. exact (H x (or_introl eq_refl) E).
  - apply IH. intros y Hy. exact (H y (or_intror Hy)).
Qed.

Lemma similarity_nonincreasing : forall a b,
  0 <= a -> a <= b -> F64.div 1 (F64.add 1 b) <= F64.div 1 (F64.add 1 a).
Proof.
  intros a b Ha Hab. unfold F64.div.
  assert (Hsa : 1 <= F64.add 1 a) by (apply F64Facts.round_ge_1; lra).
  assert (Hsab : F64.add 1 a <= F64.add 1 b)
    by (apply F64Facts.round_mono; lra).
  apply F64Facts.round_mono.
  - apply Qlt_shift_div_l; lra.
  - unfold Qdiv. rewrite !Qmult_1_l.
    set (sa := F64.add 1 a) in *. set (sb := F64.add 1 b) in *.
    assert (Ia : sa * / sa == 1) by (apply Qmult_inv_r; intro; lra).
    assert (Ib : sb * / sb == 1) by (apply Qmult_inv_r; intro; lra).
    assert (0 < / sa) by (apply Qinv_lt_0_compat; lra).
    assert (0 < / sb) by (apply Qinv_lt_0_compat; lra).
    nra.
Qed.

(** The result a formatted row gets when the response carries no distances. *)
Definition zero_result (m : Metadata) : QueryResult :=
  {| qr_caption := md_caption m;
     qr_timestamp_str := md_timestamp_str m;
     qr_timestamp_seconds := md_timestamp_seconds m;
     qr_frame_index := md_frame_index m;
     distance := 0;
     similarity_score := F64.div 1 (F64.add 1 0) |}.

Lemma format_from_no_distances : forall dists ms i,
  (dists = None \/ dists = Some []) ->
  format_from dists i ms = Ok (map zero_result ms).
Proof.
  intros dists ms; induction ms as [|m ms IH]; intros i Hd; simpl;
    [reflexivity|].
  rewrite (IH (S i) Hd).
  destruct Hd as [-> | ->]; reflexivity.
Qed.

(** ** C1 *)

(** C1: for every [top_k] in [[MIN_TOP_K, MAX_TOP_K]] and every collection
    state, [query_video] (once the question is embedded) returns at most
    [top_k] results whose distances are non-decreasing in list order, and
    an empty list, not an error, when no entry of the video exists. *)
Theorem query_video_top_k_sorted :
  forall embeddings_fn st video_id question top_k e,
  (MIN_TOP_K <= top_k <= MAX_TOP_K)%Z ->
  embeddings_fn question = Ok e ->
  exists res,
    query_video embeddings_fn st video_id question top_k = Ok res /\
    (Z.of_nat (length res) <= top_k)%Z /\
    Sorted Qle (map distance res) /\
    ((forall x, In x st -> md_video_id (e_metadata x) <> video_id) -> res = []).
Proof.
  intros embeddings_fn st video_id question top_k e Hk He.
  unfold MIN_TOP_K, MAX_TOP_K in Hk.
  exists (map mk_result (hits st e top_k video_id)).
  split; [apply query_video_chroma; [exact He|lia]|].
  split; [|split].
  - rewrite length_map. unfold hits.
    pose proof (firstn_le_length (Z.to_nat top_k)
      (Chroma.sort_by_dist (map (fun x => (x, Chroma.l2 e (e_embedding x)))
         (filter (Chroma.matches video_id) st)))).
    lia.
  - rewrite map_map. change (fun x => distance (mk_result x)) with (@snd Entry Q).
    apply ChromaFacts.map_snd_sorted, ChromaFacts.firstn_sorted,
      ChromaFacts.sort_by_dist_sorted.
  - intros Hno. unfold hits. rewrite (filter_no_match _ _ Hno).
    simpl. now rewrite firstn_nil.
Qed.

(** ** C2 *)

(** C2: every result [query_video] returns for video [video_id] is built
    from a stored entry whose metadata [video_id] is [video_id]; no entry of
    another video is ever returned. *)
Theorem query_video_filters_video_id :
  forall embeddings_fn st video_id question top_k res,
  query_video embeddings_fn st video_id question top_k = Ok res ->
  forall r, In r res ->
  exists x d, In x st /\ md_video_id (e_metadata x) = video_id /\
              r = mk_result (x, d).
Proof.
  intros embeddings_fn st video_id question top_k res H r Hr.
  destruct (query_video_ok_inv _ _ _ _ _ _ H) as [e [_ [_ ->]]].
  apply in_map_iff in Hr as [[x d] [<- Hp]].
  destruct (in_hits _ _ _ _ _ Hp) as [Hx [Hv _]].
  exists x, d. auto.
Qed.

(** ** C4 *)

(** C4 (as amended): every result of [query_video] has [similarity_score]
    equal to [1 / (1 + distance)] computed in floats, and of two results the
    one with the strictly larger distance has a similarity no larger: the
    score is non-increasing in the distance.  It need not be strictly
    smaller: the distances [0] and [1e-18] both give [1.0]. *)
Theorem query_video_similarity_nonincreasing :
  forall embeddings_fn st video_id question top_k res,
  query_video embeddings_fn st video_id question top_k = Ok res ->
  (forall r, In r res ->
     similarity_score r = F64.div 1 (F64.add 1 (distance r))) /\
  (forall a b, In a res -> In b res -> distance a < distance b ->
               similarity_score b <= similarity_score a).
Proof.
  intros embeddings_fn st video_id question top_k res H.
  destruct (query_video_ok_inv _ _ _ _ _ _ H) as [e [_ [_ ->]]].
  split.
  - intros r Hr. apply in_map_iff in Hr as [p [<- _]]. reflexivity.
  - intros a b Ha Hb Hlt.
    apply in_map_iff in Ha as [pa [<- Ha]].
    apply in_map_iff in Hb as [pb [<- _]].
    simpl in *. apply similarity_nonincreasing; [|apply Qlt_le_weak, Hlt].
    destruct (in_hits _ _ _ _ _ Ha) as [_ [_ ->]].
    apply ChromaFacts.l2_nonneg.
Qed.

(** ** C10 *)

(** C10: when the collection's response carries matched metadatas but its
    [distances] field is [None] or empty, [query_video] does not fail: it
    returns one result per matched metadata, each with distance [0] and
    similarity score [1]. *)
Theorem query_video_missing_distances :
  forall embeddings_fn coll_query video_id question top_k e m0 rest dists,
  embeddings_fn question = Ok e ->
  coll_query e top_k video_id =
    Ok {| r_metadatas := Some (m0 :: rest); r_distances := dists |} ->
  m0 <> [] ->
  (dists = None \/ dists = Some []) ->
  exists res,
    query_video_with embeddings_fn coll_query video_id question top_k = Ok res /\
    map qr_caption res = map md_caption m0 /\
    (forall r, In r res -> distance r = 0 /\ similarity_score r = 1).
Proof.
  intros embeddings_fn coll_query video_id question top_k e m0 rest dists
    He Hq Hm Hd.
  exists (map zero_result m0).
  split; [|split].
  - unfold query_video_with. rewrite He. simpl. rewrite Hq.
    unfold format_results. simpl.
    destruct m0 as [|m ms]; [contradiction|].
    apply format_from_no_distances, Hd.
  - rewrite map_map. reflexivity.
  - intros r Hr. apply in_map_iff in Hr as [m [<- _]]. split; reflexivity.
Qed.

(** ** C5 *)

Lemma filter_none {A} (f : A -> bool) : forall l,
  (forall x, In x l -> f x = false) -> filter f l = [].
Proof.
  induction l as [|x l IH]; intros H; simpl; [reflexivity|].
  rewrite (H x (or_introl eq_refl)). apply IH. intros y Hy. exact (H y (or_intror Hy)).
Qed.

Lemma delete_removes_video : forall st v,
  filter (Chroma.matches v) (snd (delete_video_frames st v)) = [].
Proof.
  intros st v. unfold delete_video_frames.
  destruct (Chroma.get_ids st v) as [|i is] eqn:Hids; simpl.
  - unfold Chroma.get_ids in Hids. now apply map_eq_nil in Hids.
  - rewrite <- Hids. apply filter_none. intros x Hx.
    unfold Chroma.delete in Hx. apply filter_In in Hx as [Hx Hn].
    destruct (Chroma.matches v x) eqn:Hm; [|reflexivity].
    exfalso. apply negb_true_iff in Hn.
    assert (Hin : In (e_id x) (Chroma.get_ids st v)).
    { apply in_map, filter_In. auto. }
    assert (existsb (String.eqb (e_id x)) (Chroma.get_ids st v) = true).
    { apply existsb_exists. exists (e_id x). split; [exact Hin|].
      apply String.eqb_refl. }
    congruence.
Qed.

Lemma delete_count : forall st v,
  fst (delete_video_frames st v) = length (filter (Chroma.matches v) st).
Proof.
  intros st v. unfold delete_video_frames.
  destruct (Chroma.get_ids st v) as [|i is] eqn:Hids.
  - unfold Chroma.get_ids in Hids. apply map_eq_nil in Hids. now rewrite Hids.
  - cbv beta iota zeta delta [fst]. rewrite <- Hids. unfold Chroma.get_ids. now rewrite length_map.
Qed.

(** C5: [delete_video_frames] returns the number of entries of the video,
    hence [0] for a video with no entry; called twice in a row on the same
    video, the second call returns [0]. *)
Theorem delete_video_frames_idempotent : forall st video_id,
  fst (delete_video_frames st video_id)
    = length (filter (Chroma.matches video_id) st) /\
  ((forall x, In x st -> md_video_id (e_metadata x) <> video_id) ->
   fst (delete_video_frames st video_id) = 0%nat) /\
  fst (delete_video_frames (snd (delete_video_frames st video_id)) video_id)
    = 0%nat.
Proof.
  intros st v. split; [|split].
  - apply delete_count.
  - intros Hno. rewrite delete_count, (filter_no_match _ _ Hno). reflexivity.
  - rewrite delete_count, delete_removes_video. reflexivity.
Qed.

(** ** C3 *)

Lemma map_r_index_fails : forall embeddings_fn v pre r post e,
  (forall x, In x pre -> exists y, embeddings_fn (document v x) = Ok y) ->
  embeddings_fn (document v r) = Err e ->
  map_r (index_one embeddings_fn v) (pre ++ r :: post) = Err e.
Proof.
  intros embeddings_fn v pre r post e Hpre Hr.
  induction pre as [|x pre IH]; simpl.
  - unfold index_one at 1. rewrite Hr. reflexivity.
  - destruct (Hpre x (or_introl eq_refl)) as [y Hy].
    unfold index_one at 1. rewrite Hy. simpl.
    rewrite IH; [reflexivity|]. intros z Hz. exact (Hpre z (or_intror Hz)).
Qed.

(** C3 (counterexample): the provider embeds the first record of [v1] and
    then fails on the second; the error is raised, but no entry of the
    first record is in the collection afterwards. *)
Lemma index_partial_progress_counterexample :
  Demo.flaky_embed (document "v1" Demo.rec0) = Ok [37] /\
  fst (index_video_frames Demo.flaky_embed [] "v1" [Demo.rec0; Demo.rec1])
    = Err RequestException /\
  Chroma.has_id
    (snd (index_video_frames Demo.flaky_embed [] "v1" [Demo.rec0; Demo.rec1]))
    (frame_id "v1" Demo.rec0) = false.
Proof. vm_compute. repeat split. Qed.

(** C3 (as amended): when the provider fails on some record, every earlier
    record having been embedded, [index_video_frames] raises that error and
    leaves the collection exactly as it was: nothing of the batch is
    written. *)
Theorem index_video_frames_embedding_failure :
  forall embeddings_fn st video_id pre r post e,
  (forall x, In x pre -> exists y, embeddings_fn (document video_id x) = Ok y) ->
  embeddings_fn (document video_id r) = Err e ->
  index_video_frames embeddings_fn st video_id (pre ++ r :: post) = (Err e, st).
Proof.
  intros embeddings_fn st v pre r post e Hpre Hr.
  unfold index_video_frames.
  rewrite (map_r_index_fails _ _ _ _ _ _ Hpre Hr).
  destruct pre; reflexivity.
Qed.

(** ** C9 *)

Lemma has_dup_false_NoDup : forall ids, Chroma.has_dup ids = false -> NoDup ids.
Proof.
  induction ids as [|i r IH]; simpl; intros H; [constructor|].
  apply orb_false_iff in H as [Hi Hr]. constructor; [|exact (IH Hr)].
  intros Hin. assert (existsb (String.eqb i) r = true)
    by (apply existsb_exists; exists i; split; [exact Hin|apply String.eqb_refl]).
  congruence.
Qed.

Lemma map_filter_ids : forall (g : string -> bool) (l : list Entry),
  map e_id (filter (fun e => g (e_id e)) l) = filter g (map e_id l).
Proof.
  intros g l; induction l as [|x l IH]; simpl; [reflexivity|].
  destruct (g (e_id x)); simpl; now rewrite IH.
Qed.

(** The collection never holds two entries with one id. *)
Lemma add_keeps_ids_unique : forall st batch st',
  NoDup (map e_id st) -> Chroma.add st batch = Ok st' -> NoDup (map e_id st').
Proof.
  intros st batch st' Hst Hadd. unfold Chroma.add in Hadd.
  destruct (Chroma.has_dup (map e_id batch)) eqn:Hd; [discriminate|].
  injection Hadd as <-. rewrite map_app.
  rewrite (map_filter_ids (fun i => negb (Chroma.has_id st i))).
  apply NoDup_app; [exact Hst| |].
  - apply NoDup_filter, has_dup_false_NoDup, Hd.
  - intros a Ha Hb. apply filter_In in Hb as [_ Hb].
    apply negb_true_iff in Hb. apply in_map_iff in Ha as [x [<- Hx]].
    assert (Chroma.has_id st (e_id x) = true)
      by (apply existsb_exists; exists x; split; [exact Hx|apply String.eqb_refl]).
    congruence.
Qed.

Lemma index_keeps_ids_unique : forall embeddings_fn st video_id records,
  NoDup (map e_id st) ->
  NoDup (map e_id (snd (index_video_frames embeddings_fn st video_id records))).
Proof.
  intros embeddings_fn st v records Hst. unfold index_video_frames.
  destruct records; [exact Hst|].
  destruct (map_r _ _) as [entries|e]; [|exact Hst].
  destruct (Chroma.add st entries) as [st'|e] eqn:Ha; [|exact Hst].
  exact (add_keeps_ids_unique _ _ _ Hst Ha).
Qed.

(** C9: two transcript segments of one video both get the id [v1_-1]; the
    collection refuses the batch, so neither record gets an entry and the
    indexing call fails. *)
Theorem index_audio_segments_share_id :
  frame_id "v1" Demo.audio0 = "v1_-1"%string /\
  frame_id "v1" Demo.audio1 = "v1_-1"%string /\
  index_video_frames Demo.embed [] "v1" [Demo.audio0; Demo.audio1]
    = (Err DuplicateIDError, []).
Proof. vm_compute. repeat split. Qed.

(** ** C8 *)

(** C8: for a video with no indexed entry, the retrieval returns the empty
    list and the question-answering branch only warns: it issues no call to
    the completion service. *)
Theorem ask_question_no_matches_no_llm :
  forall embeddings_fn generate_answer st video_id question top_k e,
  (MIN_TOP_K <= top_k <= MAX_TOP_K)%Z ->
  embeddings_fn question = Ok e ->
  (forall x, In x st -> md_video_id (e_metadata x) <> video_id) ->
  query_video embeddings_fn st video_id question top_k = Ok [] /\
  ask_question embeddings_fn generate_answer st video_id question top_k
    = [Warning "No relevant frames found for your question."] /\
  llm_calls (ask_question embeddings_fn generate_answer st video_id question top_k)
    = 0%nat.
Proof.
  intros embeddings_fn generate_answer st v question top_k e Hk He Hno.
  unfold MIN_TOP_K, MAX_TOP_K in Hk.
  assert (Hq : query_video embeddings_fn st v question top_k = Ok []).
  { rewrite (query_video_chroma _ _ _ _ _ e He) by lia.
    unfold hits. rewrite (filter_no_match _ _ Hno). simpl.
    now rewrite firstn_nil. }
  unfold ask_question. rewrite Hq. auto.
Qed.

(** ** C7 *)

(** C7: a reply of the embedding service whose JSON object has no
    ["embedding"] field makes [get_embedding] raise
    [ValueError("No embedding returned from Ollama")]; more generally
    [get_embedding] only ever returns a value stored under ["embedding"] in
    the reply, never a default vector. *)
Theorem get_embedding_missing_field : forall post text,
  (forall status kvs,
     post (embedding_request text) = HttpReply status (Some (JObj kvs)) ->
     (status < 400 \/ 600 <= status)%Z ->
     ~ In "embedding"%string (map fst kvs) ->
     get_embedding post text
       = Err (ValueError "No embedding returned from Ollama"%string)) /\
  (forall v, get_embedding post text = Ok v ->
     exists status kvs,
       post (embedding_request text) = HttpReply status (Some (JObj kvs)) /\
       In ("embedding"%string, v) kvs).
Proof.
  intros post text. split.
  - intros status kvs Hp Hs Hk. unfold get_embedding. rewrite Hp.
    replace ((400 <=? status) && (status <? 600))%Z with false
      by (destruct Hs; destruct (Z.leb_spec 400 status), (Z.ltb_spec status 600);
          simpl; lia).
    simpl.
    destruct (existsb (fun kv => String.eqb (fst kv) "embedding") kvs) eqn:E;
      [|reflexivity].
    exfalso. apply Hk. apply existsb_exists in E as [[k x] [Hin Hkx]].
    apply String.eqb_eq in Hkx. simpl in Hkx. subst k.
    apply (in_map fst) in Hin. exact Hin.
  - intros v H. unfold get_embedding in H.
    destruct (post (embedding_request text)) as [|status body];
      [discriminate|].
    destruct (((400 <=? status) && (status <? 600))%Z); [discriminate|].
    destruct body as [body|]; [|discriminate].
    destruct body as [| | |s|l|kvs]; simpl in H; try discriminate.
    + destruct (is_substring "embedding" s); discriminate.
    + destruct (existsb _ l); discriminate.
    + destruct (existsb _ kvs); simpl in H; [|discriminate].
      destruct (find (fun kv => String.eqb (fst kv) "embedding") kvs)
        as [[k x]|] eqn:F; [|discriminate].
      apply find_some in F as [Hin Hk]. apply String.eqb_eq in Hk.
      simpl in Hk. subst k. injection H as <-. exists status, kvs. auto.
Qed.

(** C7, at a reply [{"error": "model not found"}] with status 200. *)
Lemma get_embedding_missing_field_witness :
  get_embedding Demo.no_embedding_server "a car"%string
  = Err (ValueError "No embedding returned from Ollama"%string).
Proof.
  apply (proj1 (get_embedding_missing_field Demo.no_embedding_server "a car"%string)
           200%Z [("error"%string, JStr "model not found")]).
  - reflexivity.
  - left; reflexivity.
  - simpl. intros [H|[]]. discriminate.
Defined.

(** ** C6 *)

Lemma map_r_in {A B} (f : A -> result B) : forall l ys,
  map_r f l = Ok ys -> forall y, In y ys -> exists x, In x l /\ f x = Ok y.
Proof.
  induction l as [|x l IH]; intros ys H y Hy; simpl in H.
  - injection H as <-. destruct Hy.
  - destruct (f x) as [y0|e] eqn:Ex; [|discriminate]. simpl in H.
    destruct (map_r f l) as [ys'|e] eqn:El; [|discriminate]. simpl in H.
    injection H as <-. destruct Hy as [<-|Hy].
    + exists x. simpl. auto.
    + destruct (IH ys' eq_refl y Hy) as [z [Hz Hfz]]. exists z. simpl. auto.
Qed.

Lemma map_r_ok {A B} (f : A -> result B) : forall l,
  (forall x, In x l -> exists y, f x = Ok y) ->
  exists ys, map_r f l = Ok ys /\ length ys = length l /\
             (forall x, In x l -> exists y, In y ys /\ f x = Ok y).
Proof.
  induction l as [|x l IH]; intros H; simpl.
  - exists []. repeat split. intros _ [].
  - destruct (H x (or_introl eq_refl)) as [y Hy]. rewrite Hy. simpl.
    destruct IH as [ys [Hys [Hl Hin]]]; [intros z Hz; exact (H z (or_intror Hz))|].
    rewrite Hys. simpl. exists (y :: ys). repeat split; [simpl; lia|].
    intros z [<-|Hz]; [exists y; simpl; auto|].
    destruct (Hin z Hz) as [w [Hw Hfw]]. exists w. simpl. auto.
Qed.

Lemma insert_nat_perm : forall x l, Permutation (insert_nat x l) (x :: l).
Proof.
  intros x l; induction l as [|y l IH]; simpl; [auto|].
  destruct (Nat.leb x y); [auto|].
  eapply perm_trans; [apply perm_skip, IH|apply perm_swap].
Qed.

Lemma sort_nat_perm : forall l, Permutation (sort_nat l) l.
Proof.
  induction l as [|x l IH]; simpl; [auto|].
  eapply perm_trans; [apply insert_nat_perm|auto].
Qed.

Lemma actual_clusters_bounds : forall num_clusters n, (1 <= n)%nat ->
  (1 <= Z.to_nat (actual_clusters num_clusters n) <= n)%nat /\
  Z.of_nat (Z.to_nat (actual_clusters num_clusters n))
    = Z.max 1 (Z.min num_clusters (Z.of_nat n)).
Proof.
  intros num_clusters n Hn. unfold actual_clusters.
  destruct (Z.ltb_spec (Z.min num_clusters (Z.of_nat n)) 1); lia.
Qed.

Section SceneDetectionFacts.

Variable Frame : Type.
Variable Emb : Type.
Variable get_embeddings : list Frame -> list Emb.
Variable closest_indices : nat -> list Emb -> list nat.

(** The CLIP encoder returns one row per frame. *)
Hypothesis get_embeddings_length :
  forall fs, length (get_embeddings fs) = length fs.
(** K-means with [k <= n] samples has [k] centres, and each centre's
    nearest sample is a row of the input. *)
Hypothesis closest_indices_length : forall k es,
  (1 <= k <= length es)%nat -> length (closest_indices k es) = k.
Hypothesis closest_indices_range : forall k es i,
  (1 <= k <= length es)%nat -> In i (closest_indices k es) ->
  (i < length es)%nat.

(** C6 (as amended): a video whose read loop keeps no frame gives [[]]; otherwise
    [extract_keyframes] returns [max 1 (min num_clusters n)] keyframes for
    [n] sampled frames: exactly one for [num_clusters = 1], and [n] when
    [n <= num_clusters]; every keyframe is one of the sampled frames. *)
Theorem extract_keyframes_count :
  forall (video : Video Frame) num_clusters sample_rate iv buf,
  interval (v_fps Frame video) sample_rate = Ok iv ->
  sample Frame iv 0 (frames_of Frame video) = Ok buf ->
  (buf = [] ->
   extract_keyframes Frame Emb get_embeddings closest_indices
     video num_clusters sample_rate = Ok []) /\
  (buf <> [] -> exists kfs,
     extract_keyframes Frame Emb get_embeddings closest_indices
       video num_clusters sample_rate = Ok kfs /\
     Z.of_nat (length kfs) = Z.max 1 (Z.min num_clusters (Z.of_nat (length buf))) /\
     (num_clusters = 1%Z -> length kfs = 1%nat) /\
     ((Z.of_nat (length buf) <= num_clusters)%Z -> length kfs = length buf) /\
     (forall kf, In kf kfs ->
        In (kf_frame Frame kf, kf_timestamp_seconds Frame kf,
            kf_frame_index Frame kf) buf)).
Proof.
  intros video num_clusters sample_rate iv buf Hiv Hs.
  unfold extract_keyframes. rewrite Hiv. simpl. rewrite Hs. simpl.
  split.
  - intros ->. reflexivity.
  - intros Hne. destruct buf as [|b bs]; [contradiction|].
    set (buf := b :: bs) in *.
    set (embs := get_embeddings (map (fun x => fst (fst x)) buf)).
    set (k := Z.to_nat (actual_clusters num_clusters (length buf))).
    assert (Hn : (1 <= length buf)%nat) by (simpl; lia).
    destruct (actual_clusters_bounds num_clusters _ Hn) as [Hk Hkz].
    fold k in Hk, Hkz.
    assert (He : length embs = length buf).
    { unfold embs. now rewrite get_embeddings_length, length_map. }
    assert (Hk' : (1 <= k <= length embs)%nat) by lia.
    assert (Hrange : forall i, In i (sort_nat (closest_indices k embs)) ->
                               (i < length buf)%nat).
    { intros i Hi. rewrite <- He.
      apply (closest_indices_range k); [exact Hk'|].
      exact (Permutation_in _ (sort_nat_perm _) Hi). }
    destruct (map_r_ok (keyframe_at Frame buf)
                (sort_nat (closest_indices k embs))) as [kfs [Hm [Hl Hin]]].
    { intros i Hi. unfold keyframe_at.
      destruct (nth_error buf i) as [[[f ts] fi]|] eqn:E.
      - eexists; reflexivity.
      - apply nth_error_None in E. specialize (Hrange i Hi). lia. }
    exists kfs. split; [exact Hm|].
    assert (Hlk : length kfs = k).
    { rewrite Hl, (Permutation_length (sort_nat_perm _)).
      apply closest_indices_length, Hk'. }
    split; [|split; [|split]].
    + rewrite Hlk. exact Hkz.
    + intros ->. lia.
    + intros Hle. lia.
    + intros kf Hkf.
      destruct (map_r_in _ _ _ Hm kf Hkf) as [i [_ Hf]].
      unfold keyframe_at in Hf.
      destruct (nth_error buf i) as [[[f ts] fi]|] eqn:E; [|discriminate].
      injection Hf as <-. simpl. exact (nth_error_In _ _ E).
Qed.

End SceneDetectionFacts.

(** ** Witnesses *)

Lemma no_entry_of : forall st v,
  forallb (fun x => negb (String.eqb (md_video_id (e_metadata x)) v)) st = true ->
  forall x, In x st -> md_video_id (e_metadata x) <> v.
Proof.
  intros st v H x Hx E. rewrite forallb_forall in H.
  specialize (H x Hx). rewrite E, String.eqb_refl in H. discriminate.
Qed.

(** C1 on three frames of [v1] and one of [v2], [top_k = 3]; and on [v3],
    which has no entry. *)
Lemma query_video_top_k_sorted_witness :
  (exists res,
    query_video Demo.embed Demo.store "v1" Demo.question 3 = Ok res /\
    (Z.of_nat (length res) <= 3)%Z /\ Sorted Qle (map distance res)) /\
  query_video Demo.embed Demo.store "v3" Demo.question 3 = Ok [].
Proof.
  split.
  - destruct (query_video_top_k_sorted Demo.embed Demo.store "v1" Demo.question 3
                [17] ltac:(unfold MIN_TOP_K, MAX_TOP_K; lia) eq_refl)
      as [res [H1 [H2 [H3 _]]]].
    exists res. auto.
  - destruct (query_video_top_k_sorted Demo.embed Demo.store "v3" Demo.question 3
                [17] ltac:(unfold MIN_TOP_K, MAX_TOP_K; lia) eq_refl)
      as [res [H1 [_ [_ H4]]]].
    rewrite H1, H4; [reflexivity|].
    apply no_entry_of. vm_compute. reflexivity.
Defined.

(** C2 for video [v2] in a collection that also holds [v1]. *)
Lemma query_video_filters_video_id_witness :
  Forall (fun r => exists x d, In x Demo.store /\
            md_video_id (e_metadata x) = "v2"%string /\ r = mk_result (x, d))
    Demo.results_v2.
Proof.
  apply Forall_forall.
  apply (query_video_filters_video_id Demo.embed Demo.store "v2" Demo.question 3).
  vm_compute. reflexivity.
Defined.

(** C4 (as amended) on the results for [v1]. *)
Lemma query_video_similarity_nonincreasing_witness :
  Forall (fun r => similarity_score r = F64.div 1 (F64.add 1 (distance r)))
    Demo.results_v1 /\
  Forall (fun a => Forall (fun b => distance a < distance b ->
                                    similarity_score b <= similarity_score a)
                     Demo.results_v1) Demo.results_v1.
Proof.
  destruct (query_video_similarity_nonincreasing Demo.embed Demo.store "v1"
              Demo.question 3 Demo.results_v1 ltac:(vm_compute; reflexivity))
    as [H1 H2].
  split.
  - apply Forall_forall. exact H1.
  - apply Forall_forall. intros a Ha. apply Forall_forall. intros b Hb.
    exact (H2 a b Ha Hb).
Defined.

(** C4 as stated fails: of the two frames of [v5], at distances [0] and
    [10^-18], both get the similarity [1.0], since [1 + 1e-18] rounds to
    [1.0]. *)
Lemma query_video_similarity_not_strict :
  query_video Demo.tiny_embed Demo.tiny_store "v5" Demo.question 3
    = Ok Demo.results_v5 /\
  exists a b, Demo.results_v5 = [a; b] /\
    distance a < distance b /\
    similarity_score a = 1 /\ similarity_score b = 1.
Proof.
  split; [vm_compute; reflexivity|].
  do 2 eexists. split; [reflexivity|].
  split; [vm_compute; reflexivity|]. split; vm_compute; reflexivity.
Qed.

(** C10 on a reply with one metadata and [distances = None]. *)
Lemma query_video_missing_distances_witness :
  exists res,
    query_video_with Demo.embed Demo.no_distance_query "v1" Demo.question 3 = Ok res /\
    map qr_caption res = map md_caption [Demo.meta0] /\
    Forall (fun r => distance r = 0 /\ similarity_score r = 1) res.
Proof.
  destruct (query_video_missing_distances Demo.embed Demo.no_distance_query "v1"
              Demo.question 3 [17] [Demo.meta0] [] None eq_refl eq_refl
              ltac:(discriminate) (or_introl eq_refl)) as [res [H1 [H2 H3]]].
  exists res. split; [exact H1|]. split; [exact H2|].
  apply Forall_forall. exact H3.
Defined.

(** C3 (as amended): the second record of [v1] fails to embed; the
    collection holding [Demo.store] is left as it was. *)
Lemma index_video_frames_embedding_failure_witness :
  index_video_frames Demo.flaky_embed Demo.store "v1" ([Demo.rec0] ++ [Demo.rec1])
  = (Err RequestException, Demo.store).
Proof.
  apply (index_video_frames_embedding_failure Demo.flaky_embed Demo.store "v1"
           [Demo.rec0] Demo.rec1 []).
  - intros x [<-|[]]. eexists. reflexivity.
  - reflexivity.
Defined.

(** C8 for video [v3], which has no entry. *)
Lemma ask_question_no_matches_no_llm_witness :
  query_video Demo.embed Demo.store "v3" Demo.question 3 = Ok [] /\
  ask_question Demo.embed Demo.answer Demo.store "v3" Demo.question 3
    = [Warning "No relevant frames found for your question."] /\
  llm_calls (ask_question Demo.embed Demo.answer Demo.store "v3" Demo.question 3)
    = 0%nat.
Proof.
  apply (ask_question_no_matches_no_llm Demo.embed Demo.answer Demo.store "v3"
           Demo.question 3 [17]).
  - unfold MIN_TOP_K, MAX_TOP_K. lia.
  - reflexivity.
  - apply no_entry_of. vm_compute. reflexivity.
Defined.

Lemma clip_length : forall fs, length (Demo.clip fs) = length fs.
Proof. intros fs. apply length_map. Qed.

Lemma closest_length : forall k es,
  (1 <= k <= length es)%nat -> length (Demo.closest k es) = k.
Proof. intros k es _. apply length_seq. Qed.

Lemma closest_range : forall k es i,
  (1 <= k <= length es)%nat -> In i (Demo.closest k es) -> (i < length es)%nat.
Proof. intros k es i Hk Hi. apply in_seq in Hi. lia. Qed.

(** C6 on four frames at 2 fps sampled at 1 fps, [num_clusters = 15]: two
    sampled frames, two keyframes. *)
Lemma extract_keyframes_count_witness :
  exists kfs,
    extract_keyframes nat unit Demo.clip Demo.closest Demo.video 15 1 = Ok kfs /\
    length kfs = 2%nat.
Proof.
  destruct (proj2 (extract_keyframes_count nat unit Demo.clip Demo.closest
                     clip_length closest_length closest_range
                     Demo.video 15 1 2 Demo.buf eq_refl eq_refl)
                  ltac:(discriminate)) as [kfs [Hx [_ [_ [Hle _]]]]].
  exists kfs. split; [exact Hx|].
  exact (Hle ltac:(vm_compute; discriminate)).
Defined.

(** C6 refuted: on the static video, with [num_clusters = 15] and one
    frame per second, the read loop keeps frames [0] and [2] (two frames,
    fewer than [15]); both centres are the common row and both pick sample
    [0], so the frame at index [2] is no keyframe. *)
Lemma extract_keyframes_static_counterexample :
  exists buf kfs,
    sample nat 2 0 (frames_of nat Demo.static_video) = Ok buf /\
    extract_keyframes nat (list Q) Demo.clip_rows Demo.closest_equal_rows
      Demo.static_video 15 1 = Ok kfs /\
    (Z.of_nat (length buf) < 15)%Z /\
    (exists ts, ts == 1 /\ In (10%nat, ts, 2%Z) buf) /\
    length kfs = length buf /\
    (forall kf, In kf kfs -> kf_frame_index nat kf = 0%Z).
Proof.
  do 2 eexists. split; [vm_compute; reflexivity|].
  split; [vm_compute; reflexivity|].
  split; [vm_compute; reflexivity|].
  split; [eexists; split; [|simpl; right; left; reflexivity]; reflexivity|].
  split; [reflexivity|].
  intros kf [<-|[<-|[]]]; reflexivity.
Qed.

(** C5 on [v1], which has three entries, then on [v3], which has none. *)
Lemma delete_video_frames_idempotent_witness :
  fst (delete_video_frames Demo.store "v1") = 3%nat /\
  fst (delete_video_frames (snd (delete_video_frames Demo.store "v1")) "v1")
    = 0%nat /\
  fst (delete_video_frames Demo.store "v3") = 0%nat.
Proof.
  destruct (delete_video_frames_idempotent Demo.store "v1") as [H1 [_ H3]].
  destruct (delete_video_frames_idempotent Demo.store "v3") as [_ [H2 _]].
  split; [rewrite H1; vm_compute; reflexivity|].
  split; [exact H3|].
  apply H2, no_entry_of. vm_compute. reflexivity.
Defined.

(** * Further properties of the code *)

(** ** Indexing, statistics, queries and deletion *)

Lemma str_of_Z_inj : forall a b, str_of_Z a = str_of_Z b -> a = b.
Proof.
  intros a b H. unfold str_of_Z in H.
  assert (Hne : forall z, Z.to_int z <> Decimal.Pos Decimal.Nil /\
                          Z.to_int z <> Decimal.Neg Decimal.Nil).
  { intros [|p|p]; simpl; split; try discriminate; intros E; injection E as E;
      exact (DecimalPos.Unsigned.to_uint_nonnil p E). }
  apply DecimalZ.to_int_inj.
  destruct (Hne a) as [Ha1 Ha2], (Hne b) as [Hb1 Hb2].
  pose proof (NilZero.isi (Z.to_int a) Ha1 Ha2) as Ea.
  pose proof (NilZero.isi (Z.to_int b) Hb1 Hb2) as Eb.
  rewrite H in Ea. congruence.
Qed.

Lemma append_cancel_l : forall s t u, (s ++ t)%string = (s ++ u)%string -> t = u.
Proof.
  induction s as [|c s IH]; simpl; intros t u H; [exact H|].
  injection H as H. exact (IH _ _ H).
Qed.

Lemma frame_id_inj : forall v r r',
  frame_id v r = frame_id v r' -> frame_index r = frame_index r'.
Proof.
  intros v r r' H. unfold frame_id in H.
  apply append_cancel_l in H. simpl in H. injection H as H.
  exact (str_of_Z_inj _ _ H).
Qed.

Lemma NoDup_map_transfer {A B C} (f : A -> B) (g : A -> C) : forall l,
  (forall a b, In a l -> In b l -> f a = f b -> g a = g b) ->
  NoDup (map g l) -> NoDup (map f l).
Proof.
  induction l as [|a l IH]; intros Hfg Hnd; simpl; [constructor|].
  simpl in Hnd. inversion Hnd as [|x y Hna Hnd']; subst.
  constructor.
  - intros Hin. apply in_map_iff in Hin as [b [Hb Hbl]].
    apply Hna. rewrite (Hfg a b (or_introl eq_refl) (or_intror Hbl) (eq_sym Hb)).
    apply in_map, Hbl.
  - apply IH; [|exact Hnd'].
    intros x y Hx Hy. apply Hfg; right; assumption.
Qed.

Lemma NoDup_has_dup_false : forall ids, NoDup ids -> Chroma.has_dup ids = false.
Proof.
  induction ids as [|i r IH]; intros Hnd; simpl; [reflexivity|].
  inversion Hnd as [|x y Hi Hr]; subst.
  rewrite (IH Hr), orb_false_r.
  destruct (existsb (String.eqb i) r) eqn:E; [|reflexivity].
  apply existsb_exists in E as [j [Hj Hij]]. apply String.eqb_eq in Hij.
  subst j. contradiction.
Qed.

Lemma filter_all {A} (f : A -> bool) : forall l,
  (forall x, In x l -> f x = true) -> filter f l = l.
Proof.
  induction l as [|x l IH]; intros H; simpl; [reflexivity|].
  rewrite (H x (or_introl eq_refl)), IH; [reflexivity|].
  intros y Hy. exact (H y (or_intror Hy)).
Qed.

Lemma map_r_index_ok : forall embeddings_fn v records,
  (forall r, In r records -> exists y, embeddings_fn (document v r) = Ok y) ->
  exists entries,
    map_r (index_one embeddings_fn v) records = Ok entries /\
    map e_id entries = map (frame_id v) records /\
    (forall x, In x entries -> Chroma.matches v x = true).
Proof.
  intros embeddings_fn v records; induction records as [|r rs IH]; intros H.
  - exists []. simpl. repeat split. intros _ [].
  - destruct (H r (or_introl eq_refl)) as [y Hy].
    destruct IH as [es [Hes [Hids Hm]]]; [intros z Hz; exact (H z (or_intror Hz))|].
    simpl. unfold index_one at 1. rewrite Hy. simpl. rewrite Hes. simpl.
    eexists. split; [reflexivity|]. split; [simpl; now rewrite Hids|].
    intros x [<-|Hx]; [|exact (Hm x Hx)].
    unfold Chroma.matches. simpl. apply String.eqb_refl.
Qed.

(** Indexing a batch of records with distinct [frame_index] values, none of
    whose ids is stored yet, once every record is embedded. *)
Lemma index_fresh : forall embeddings_fn st video_id records,
  records <> [] ->
  NoDup (map frame_index records) ->
  (forall r, In r records -> exists y, embeddings_fn (document video_id r) = Ok y) ->
  (forall x r, In x st -> In r records -> e_id x <> frame_id video_id r) ->
  exists entries,
    index_video_frames embeddings_fn st video_id records
      = (Ok (length records), st ++ entries) /\
    map e_id entries = map (frame_id video_id) records /\
    (forall x, In x entries -> Chroma.matches video_id x = true).
Proof.
  intros embeddings_fn st v records Hne Hnd Hemb Hfresh.
  destruct (map_r_index_ok embeddings_fn v records Hemb) as [es [Hes [Hids Hm]]].
  exists es. split; [|split; assumption].
  assert (Hlen : length es = length records)
    by (rewrite <- (length_map e_id es), Hids; apply length_map).
  unfold index_video_frames.
  destruct records as [|r0 rs]; [contradiction|].
  rewrite Hes. unfold Chroma.add.
  rewrite Hids, NoDup_has_dup_false.
  - rewrite filter_all; [rewrite Hlen; reflexivity|].
    intros x Hx. apply negb_true_iff.
    assert (Hxid : In (e_id x) (map (frame_id v) (r0 :: rs)))
      by (rewrite <- Hids; apply in_map, Hx).
    apply in_map_iff in Hxid as [r [Hr Hrin]].
    destruct (Chroma.has_id st (e_id x)) eqn:E; [|reflexivity].
    apply existsb_exists in E as [y [Hy Hyx]]. apply String.eqb_eq in Hyx.
    exfalso. exact (Hfresh y r Hy Hrin (eq_trans Hyx (eq_sym Hr))).
  - apply (NoDup_map_transfer (frame_id v) frame_index); [|exact Hnd].
    intros a b _ _. apply frame_id_inj.
Qed.

Lemma get_ids_app : forall st es v,
  (forall x, In x es -> Chroma.matches v x = true) ->
  Chroma.get_ids (st ++ es) v = Chroma.get_ids st v ++ map e_id es.
Proof.
  intros st es v H. unfold Chroma.get_ids.
  rewrite filter_app, map_app, (filter_all _ es H). reflexivity.
Qed.

(** X1: indexing a batch of records with distinct [frame_index] values into
    a collection holding none of their ids, every record being embedded,
    returns the number of records; [get_collection_stats] counts exactly
    that many more frames, and [get] on the video returns the ids it had
    followed by one id [f"{video_id}_{frame_index}"] per record, in order. *)
Theorem index_video_frames_fresh_round_trip :
  forall embeddings_fn st video_id records,
  records <> [] ->
  NoDup (map frame_index records) ->
  (forall r, In r records -> exists y, embeddings_fn (document video_id r) = Ok y) ->
  (forall x r, In x st -> In r records -> e_id x <> frame_id video_id r) ->
  fst (index_video_frames embeddings_fn st video_id records)
    = Ok (length records) /\
  total_frames (get_collection_stats
                  (snd (index_video_frames embeddings_fn st video_id records)))
    = (total_frames (get_collection_stats st) + length records)%nat /\
  Chroma.get_ids (snd (index_video_frames embeddings_fn st video_id records))
      video_id
    = Chroma.get_ids st video_id ++ map (frame_id video_id) records.
Proof.
  intros embeddings_fn st v records Hne Hnd Hemb Hfresh.
  destruct (index_fresh embeddings_fn st v records Hne Hnd Hemb Hfresh)
    as [es [Hidx [Hids Hm]]].
  rewrite Hidx. cbv beta iota zeta delta [fst snd].
  split; [reflexivity|]. split.
  - simpl. rewrite length_app, <- (length_map e_id es), Hids, length_map.
    reflexivity.
  - rewrite get_ids_app by exact Hm. now rewrite Hids.
Qed.

(** X2: [query_video] on a ChromaDB collection, once the question is
    embedded, returns exactly [min(top_k, n)] results for a video with [n]
    stored entries when [top_k > 0]; with [top_k <= 0] the collection
    refuses the query. *)
Theorem query_video_result_count : forall embeddings_fn st video_id question top_k e,
  embeddings_fn question = Ok e ->
  ((0 < top_k)%Z ->
   exists res,
     query_video embeddings_fn st video_id question top_k = Ok res /\
     length res = Nat.min (Z.to_nat top_k)
                    (length (filter (Chroma.matches video_id) st))) /\
  ((top_k <= 0)%Z ->
   query_video embeddings_fn st video_id question top_k = Err InvalidNResults).
Proof.
  intros embeddings_fn st v question top_k e He. split.
  - intros Hk. eexists. split; [exact (query_video_chroma _ _ _ _ _ e He Hk)|].
    rewrite length_map. unfold hits. rewrite length_firstn.
    rewrite (Permutation_length (ChromaFacts.sort_by_dist_perm _)), length_map.
    reflexivity.
  - intros Hk. unfold query_video, query_video_with. rewrite He. simpl.
    unfold Chroma.query. replace (top_k <=? 0)%Z with true by lia. reflexivity.
Qed.

Lemma NoDup_map_eq {A B} (f : A -> B) : forall l x y,
  NoDup (map f l) -> In x l -> In y l -> f x = f y -> x = y.
Proof.
  induction l as [|a l IH]; intros x y Hnd Hx Hy Hxy; [contradiction|].
  simpl in Hnd. inversion Hnd as [|b c Ha Hl]; subst.
  destruct Hx as [<-|Hx], Hy as [<-|Hy]; auto.
  - exfalso. apply Ha. rewrite Hxy. apply in_map, Hy.
  - exfalso. apply Ha. rewrite <- Hxy. apply in_map, Hx.
Qed.

(** X4: in a collection without two entries sharing an id (which indexing
    keeps), [delete_video_frames] removes exactly the entries of the video
    and keeps every other entry, in order. *)
Theorem delete_video_frames_scope : forall st video_id,
  NoDup (map e_id st) ->
  snd (delete_video_frames st video_id)
    = filter (fun x => negb (Chroma.matches video_id x)) st.
Proof.
  intros st v Hnd. unfold delete_video_frames.
  destruct (Chroma.get_ids st v) as [|i is] eqn:Hids.
  - unfold Chroma.get_ids in Hids. apply map_eq_nil in Hids.
    simpl. symmetry. apply filter_all. intros x Hx.
    destruct (Chroma.matches v x) eqn:Hm; [|reflexivity].
    assert (In x (filter (Chroma.matches v) st)) by (apply filter_In; auto).
    rewrite Hids in H. contradiction.
  - cbv beta iota zeta delta [snd]. rewrite <- Hids. unfold Chroma.delete.
    apply filter_ext_in. intros x Hx. f_equal.
    destruct (Chroma.matches v x) eqn:Hm.
    + apply existsb_exists. exists (e_id x). split; [|apply String.eqb_refl].
      apply in_map, filter_In. auto.
    + destruct (existsb (String.eqb (e_id x)) (Chroma.get_ids st v)) eqn:E;
        [|reflexivity].
      apply existsb_exists in E as [j [Hj Hxj]]. apply String.eqb_eq in Hxj.
      unfold Chroma.get_ids in Hj. apply in_map_iff in Hj as [y [Hyj Hy]].
      apply filter_In in Hy as [Hy Hmy].
      rewrite (NoDup_map_eq e_id st x y Hnd Hx Hy (eq_trans Hxj (eq_sym Hyj))) in Hm.
      congruence.
Qed.

(** ** Frame extraction and the processing pipeline *)

(** [[start, start+1, ..., start+n-1]] *)
Fixpoint zseq (start : Z) (n : nat) : list Z :=
  match n with
  | O => []
  | S n' => start :: zseq (start + 1) n'
  end.

(** The elements of [l] with their positions [a, a+1, ...]. *)
Fixpoint enumerate {A} (a : Z) (l : list A) : list (A * Z) :=
  match l with
  | [] => []
  | x :: l' => (x, a) :: enumerate (a + 1) l'
  end.

Lemma zseq_bounds : forall n a x, In x (zseq a n) -> (a <= x < a + Z.of_nat n)%Z.
Proof.
  induction n as [|n IH]; intros a x Hx; simpl in Hx; [contradiction|].
  destruct Hx as [<-|Hx]; [lia|]. specialize (IH _ _ Hx). lia.
Qed.

Lemma zseq_NoDup : forall n a, NoDup (zseq a n).
Proof.
  induction n as [|n IH]; intros a; simpl; constructor; [|apply IH].
  intros Hx. apply zseq_bounds in Hx. lia.
Qed.

Lemma extract_loop_spec : forall (Frame : Type) iv fps, ~ fps == 0 ->
  forall frames fi a, exists xs,
    extract_loop Frame iv fps fi a frames = Ok xs /\
    map (x_frame_index Frame) xs = zseq fi (length xs) /\
    map (fun x => (x_frame Frame x, x_timestamp_seconds Frame x)) xs
      = map (fun p => (fst p, inject_Z (snd p) / fps))
          (filter (fun p => (snd p mod iv =? 0)%Z) (enumerate a frames)) /\
    (forall x, In x xs ->
       x_timestamp_str Frame x = Utils.format_timestamp (x_timestamp_seconds Frame x)).
Proof.
  intros Frame iv fps Hfps frames.
  assert (Hq : Qeq_bool fps 0 = false).
  { destruct (Qeq_bool fps 0) eqn:E; [|reflexivity].
    apply Qeq_bool_iff in E. contradiction. }
  induction frames as [|f frames IH]; intros fi a; simpl.
  - exists []. repeat split. intros _ [].
  - destruct (a mod iv =? 0)%Z eqn:Ha.
    + rewrite Hq. destruct (IH (fi + 1)%Z (a + 1)%Z) as [xs [Hx [Hi [Hf Hs]]]].
      rewrite Hx. simpl. eexists. split; [reflexivity|].
      simpl. rewrite Hi, Hf. split; [reflexivity|]. split; [reflexivity|].
      intros x [<-|Hin]; [reflexivity|exact (Hs x Hin)].
    + exact (IH fi (a + 1)%Z).
Qed.

(** X5: [extract_frames] on a video that opens with a non-zero frame rate
    keeps, in order, exactly the decoded frames whose position is a multiple
    of [frame_interval], which is at least [1]; each kept frame gets the
    timestamp [position / fps] and its [HH:MM:SS] string, and the kept
    frames are numbered [0, 1, 2, ...] by [frame_index].  The first frame is
    always kept. *)
Theorem extract_frames_kept_frames : forall (Frame : Type) video_path
  (video : Video Frame) target_fps,
  v_opened Frame video = true ->
  ~ v_fps Frame video == 0 ->
  let iv := frame_interval (v_fps Frame video) target_fps in
  (1 <= iv)%Z /\
  exists xs,
    extract_frames Frame video_path video target_fps = Ok xs /\
    map (x_frame_index Frame) xs = zseq 0 (length xs) /\
    map (fun x => (x_frame Frame x, x_timestamp_seconds Frame x)) xs
      = map (fun p => (fst p, inject_Z (snd p) / v_fps Frame video))
          (filter (fun p => (snd p mod iv =? 0)%Z)
             (enumerate 0 (map fst (v_frames Frame video)))) /\
    (forall x, In x xs ->
       x_timestamp_str Frame x = Utils.format_timestamp (x_timestamp_seconds Frame x)) /\
    (v_frames Frame video <> [] -> xs <> []).
Proof.
  intros Frame path video target_fps Hop Hfps iv.
  split; [unfold iv, frame_interval; lia|].
  destruct (extract_loop_spec Frame iv (v_fps Frame video) Hfps
              (map fst (v_frames Frame video)) 0 0) as [xs [Hx [Hi [Hf Hs]]]].
  exists xs. unfold extract_frames. rewrite Hop. simpl.
  split; [exact Hx|]. split; [exact Hi|]. split; [exact Hf|]. split; [exact Hs|].
  intros Hne ->. simpl in Hf.
  destruct (v_frames Frame video) as [|[f0 m0] fs]; [contradiction|].
  simpl in Hf. discriminate.
Qed.

(** X6: [extract_frames] raises [ValueError("Could not open video file:
    ...")] for a video that does not open, and [ZeroDivisionError] for a
    video that opens, reports [0] fps and decodes at least one frame. *)
Theorem extract_frames_errors : forall (Frame : Type) video_path
  (video : Video Frame) target_fps,
  (v_opened Frame video = false ->
   extract_frames Frame video_path video target_fps
     = Err (ValueError ("Could not open video file: " ++ video_path)%string)) /\
  (v_opened Frame video = true -> v_fps Frame video == 0 ->
   v_frames Frame video <> [] ->
   extract_frames Frame video_path video target_fps = Err ZeroDivisionError).
Proof.
  intros Frame path video target_fps. split.
  - intros Hop. unfold extract_frames. now rewrite Hop.
  - intros Hop Hfps Hne. unfold extract_frames. rewrite Hop. simpl.
    destruct (v_frames Frame video) as [|[f0 m0] fs]; [contradiction|].
    simpl.
    replace (Qeq_bool (v_fps Frame video) 0) with true
      by (symmetry; apply Qeq_bool_iff, Hfps).
    reflexivity.
Qed.

Lemma map_r_caption_ok : forall (Frame : Type) generate_caption xs,
  (forall x, In x xs -> exists c, generate_caption (x_frame Frame x) = Ok c) ->
  exists records,
    map_r (caption_frame Frame generate_caption) xs = Ok records /\
    map frame_index records = map (x_frame_index Frame) xs.
Proof.
  intros Frame gen xs; induction xs as [|x xs IH]; intros H; simpl.
  - exists []. split; reflexivity.
  - destruct (H x (or_introl eq_refl)) as [c Hc].
    destruct IH as [rs [Hrs Hi]]; [intros y Hy; exact (H y (or_intror Hy))|].
    unfold caption_frame at 1. rewrite Hc. simpl. rewrite Hrs. simpl.
    eexists. split; [reflexivity|]. simpl. now rewrite Hi.
Qed.

Lemma string_app_assoc : forall a b c,
  ((a ++ b) ++ c)%string = (a ++ (b ++ c))%string.
Proof. induction a as [|x a IH]; intros b c; simpl; [reflexivity|now rewrite IH]. Qed.

Lemma prefix_app : forall s t, String.prefix s (s ++ t) = true.
Proof.
  induction s as [|c s IH]; intros t; simpl; [destruct t; reflexivity|].
  destruct (Ascii.ascii_dec c c) as [_|C]; [apply IH|contradiction].
Qed.

Lemma in_map_fst {A B} : forall (l : list (A * B)) x, In x l -> In (fst x) (map fst l).
Proof. intros l x H. now apply in_map. Qed.

(** X7: [process_video_pipeline] for a video id no stored id starts with
    ([f"{video_id}_"]), a saved video that opens with a non-zero frame rate
    and decodes at least one frame, and a captioner and an embedder that
    answer: it returns a summary with [num_indexed = num_frames >= 1], and
    the collection gains exactly the ids [f"{video_id}_{i}"] for
    [i = 0 .. num_frames - 1], appended after what it held, all readable by
    [get] on the video. *)
Theorem process_video_pipeline_indexes_all : forall (Frame : Type)
  save_uploaded_video generate_caption embeddings_fn st (video : Video Frame)
  frame_count width height video_id target_fps video_path,
  save_uploaded_video video_id = Ok video_path ->
  v_opened Frame video = true ->
  ~ v_fps Frame video == 0 ->
  v_frames Frame video <> [] ->
  (forall f, In f (map fst (v_frames Frame video)) ->
     exists c, generate_caption f = Ok c) ->
  (forall s, exists y, embeddings_fn s = Ok y) ->
  (forall x, In x st -> String.prefix (video_id ++ "_") (e_id x) = false) ->
  exists summary added,
    process_video_pipeline Frame save_uploaded_video generate_caption
      embeddings_fn st video frame_count width height video_id target_fps
      = (Some summary, st ++ added) /\
    s_num_indexed summary = s_num_frames summary /\
    (1 <= s_num_frames summary)%nat /\
    map e_id added = map (fun i => (video_id ++ "_" ++ str_of_Z i)%string)
                       (zseq 0 (s_num_frames summary)) /\
    Chroma.get_ids (st ++ added) video_id
      = Chroma.get_ids st video_id ++ map e_id added.
Proof.
  intros Frame save gen emb st video fc w h v target_fps path
    Hsave Hop Hfps Hne Hcap Hemb Hfresh.
  destruct (proj2 (extract_frames_kept_frames Frame path video target_fps Hop Hfps))
    as [xs [Hx [Hi [Hf [_ Hxne]]]]].
  specialize (Hxne Hne).
  destruct (map_r_caption_ok Frame gen xs) as [records [Hrec Hri]].
  { intros x Hin. apply Hcap.
    assert (Hin' : In (x_frame Frame x, x_timestamp_seconds Frame x)
                      (map (fun x => (x_frame Frame x, x_timestamp_seconds Frame x)) xs))
      by (apply (in_map (fun x => (x_frame Frame x, x_timestamp_seconds Frame x))), Hin).
    rewrite Hf in Hin'. apply in_map_iff in Hin' as [p [Hp Hpin]].
    apply filter_In in Hpin as [Hpin _].
    injection Hp as Hp _. rewrite <- Hp.
    clear -Hpin. revert Hpin. generalize 0%Z.
    induction (map fst (v_frames Frame video)) as [|f l IH]; intros a Hpin;
      simpl in *; [contradiction|].
    destruct Hpin as [<-|Hpin]; [now left|right; exact (IH _ Hpin)]. }
  assert (Hlen : length records = length xs)
    by (rewrite <- (length_map frame_index records), Hri; apply length_map).
  assert (Hrne : records <> []) by (intros ->; destruct xs; simpl in Hlen; congruence).
  destruct (index_fresh emb st v records Hrne) as [added [Hidx [Hids Hm]]].
  - rewrite Hri, Hi. apply zseq_NoDup.
  - intros r _. apply Hemb.
  - intros x r Hxst _ E. specialize (Hfresh x Hxst). rewrite E in Hfresh.
    unfold frame_id in Hfresh. rewrite <- string_app_assoc, prefix_app in Hfresh.
    discriminate.
  - eexists. exists added.
    unfold process_video_pipeline. rewrite Hsave. simpl.
    unfold get_video_info. rewrite Hop. simpl. rewrite Hx. simpl.
    destruct xs as [|x0 xs']; [contradiction|].
    rewrite Hrec, Hidx.
    split; [reflexivity|]. simpl s_num_frames. simpl s_num_indexed.
    split; [exact Hlen|]. split; [simpl; lia|]. split.
    + rewrite Hids. change (S (length xs')) with (length (x0 :: xs')).
      rewrite <- Hi, <- Hri, map_map. reflexivity.
    + apply get_ids_app, Hm.
Qed.

(** ** Timestamps *)

Lemma Qfloor_div_pos : forall q m, Qfloor (q / (Zpos m # 1)) = (Qfloor q / Zpos m)%Z.
Proof.
  intros [a d] m. unfold Qdiv, Qinv, Qmult, Qfloor. cbn [Qnum Qden].
  rewrite Z.mul_1_r, Pos2Z.inj_mul, Z.div_div; lia.
Qed.

Lemma Qfloor_sub_mul : forall q m z,
  Qfloor (q - (Zpos m # 1) * inject_Z z) = (Qfloor q - Zpos m * z)%Z.
Proof.
  intros [a d] m z. unfold Qminus, Qplus, Qopp, Qmult, inject_Z, Qfloor.
  cbn [Qnum Qden]. rewrite !Pos.mul_1_r, !Z.mul_1_r.
  rewrite Z.div_add; lia.
Qed.

Lemma Qmult_int_comm : forall z w, inject_Z z * inject_Z w = inject_Z w * inject_Z z.
Proof. intros z w. unfold Qmult, inject_Z. cbn [Qnum Qden]. now rewrite Z.mul_comm. Qed.

Lemma py_int_inject_Z : forall z, py_int (inject_Z z) = z.
Proof. intros z. unfold py_int, inject_Z. cbn [Qnum Qden]. apply Z.quot_1_r. Qed.

Lemma mod_3600_div_60 : forall F, ((F mod 3600) / 60 = (F / 60) mod 60)%Z.
Proof.
  intros F.
  pose proof (Z.div_mod F 60 ltac:(lia)). pose proof (Z.mod_pos_bound F 60 ltac:(lia)).
  pose proof (Z.div_mod (F / 60) 60 ltac:(lia)).
  pose proof (Z.mod_pos_bound (F / 60) 60 ltac:(lia)).
  replace (F mod 3600)%Z with (60 * ((F / 60) mod 60) + F mod 60)%Z
    by (apply Z.mod_unique with (q := (F / 60 / 60)%Z); lia).
  symmetry. apply Z.div_unique with (r := (F mod 60)%Z); lia.
Qed.

Lemma py_int_floor : forall q, 0 <= q -> py_int q = Qfloor q.
Proof. intros q H. change (py_int q) with (F64.trunc q). apply F64Facts.trunc_floor, H. Qed.

Lemma rem_bounds : forall x m, 0 <= x ->
  0 <= x - inject_Z (Zpos m) * inject_Z (Qfloor x / Zpos m) /\
  x - inject_Z (Zpos m) * inject_Z (Qfloor x / Zpos m) <= x.
Proof.
  intros x m H0.
  assert (F0 : (0 <= Qfloor x)%Z) by (change 0%Z with (Qfloor 0); apply Qfloor_resp_le, H0).
  pose proof (Qfloor_le x) as FL.
  pose proof (Z.mul_div_le (Qfloor x) (Zpos m) ltac:(lia)) as M.
  assert (M0 : (0 <= Zpos m * (Qfloor x / Zpos m))%Z)
    by (apply Z.mul_nonneg_nonneg; [lia|apply Z.div_pos; lia]).
  rewrite Zle_Qle, inject_Z_mult in M, M0. change (inject_Z 0) with 0 in M0.
  split; lra.
Qed.

(** [divmod] of a non-negative double below [2^53] by a positive integer, in
    integers: the quotient is [floor x / m]. *)
Lemma float_div_mod_Z : forall x m,
  F64.is_double x -> 0 <= x -> x < inject_Z (2 ^ 53) ->
  F64.float_div_mod x (inject_Z (Zpos m))
  = (inject_Z (Qfloor x / Zpos m),
     Qred (x - inject_Z (Zpos m) * inject_Z (Qfloor x / Zpos m))).
Proof.
  intros x m Hd H0 H53.
  rewrite F64Facts.float_div_mod_nonneg by (auto; lia).
  change (inject_Z (Zpos m)) with (Zpos m # 1). rewrite Qfloor_div_pos. reflexivity.
Qed.

Lemma rem_range : forall x m,
  F64.is_double x -> 0 <= x -> x < inject_Z (2 ^ 53) ->
  F64.is_double (Qred (x - inject_Z (Zpos m) * inject_Z (Qfloor x / Zpos m))) /\
  0 <= Qred (x - inject_Z (Zpos m) * inject_Z (Qfloor x / Zpos m)) /\
  Qred (x - inject_Z (Zpos m) * inject_Z (Qfloor x / Zpos m)) < inject_Z (2 ^ 53).
Proof.
  intros x m Hd H0 H53. destruct (rem_bounds x m H0) as [B0 B1].
  pose proof (Qred_correct (x - inject_Z (Zpos m) * inject_Z (Qfloor x / Zpos m))).
  split; [|split; lra].
  apply (F64Facts.is_double_Qeq (x - inject_Z (Zpos m) * inject_Z (Qfloor x / Zpos m))).
  - symmetry. apply Qred_correct.
  - apply F64Facts.fmod_double; assumption.
Qed.

Lemma py_int_rem : forall x m, 0 <= x ->
  py_int (Qred (x - inject_Z (Zpos m) * inject_Z (Qfloor x / Zpos m)))
  = (Qfloor x mod Zpos m)%Z.
Proof.
  intros x m H0. destruct (rem_bounds x m H0) as [B0 _].
  pose proof (Qred_correct (x - inject_Z (Zpos m) * inject_Z (Qfloor x / Zpos m))).
  rewrite py_int_floor by lra.
  rewrite (F64Facts.Qfloor_Qeq _ _ (Qred_correct _)).
  change (inject_Z (Zpos m)) with (Zpos m # 1). rewrite Qfloor_sub_mul.
  rewrite Z.mod_eq by lia. reflexivity.
Qed.

(** X8: on every double [seconds] with [0 <= seconds < 2^53],
    [utils.format_timestamp] (used for extracted frames) and the
    [divmod]-based [_format_timestamp] of [SceneDetector] and
    [AudioProcessor] give the same string. *)
Theorem format_timestamp_agree : forall seconds,
  F64.is_double seconds -> 0 <= seconds -> seconds < inject_Z (2 ^ 53) ->
  Utils.format_timestamp seconds = format_timestamp seconds.
Proof.
  intros s Hd H0 H53. unfold Utils.format_timestamp, format_timestamp,
    F64.floordiv, F64.py_mod.
  change (3600:Q) with (inject_Z (Zpos 3600)). change (60:Q) with (inject_Z (Zpos 60)).
  destruct (rem_range s 3600 Hd H0 H53) as [R1d [R10 R153]].
  rewrite !(float_div_mod_Z s) by assumption.
  cbn [fst snd].
  rewrite (float_div_mod_Z _ 60 R1d R10 R153).
  assert (F0 : (0 <= Qfloor s)%Z) by (change 0%Z with (Qfloor 0); apply Qfloor_resp_le, H0).
  assert (K53s : (0 <= Qfloor s / 60 < 2 ^ 53)%Z).
  { assert (inject_Z (Qfloor s) < inject_Z (2 ^ 53)) by (pose proof (Qfloor_le s); lra).
    rewrite <- Zlt_Qlt in H.
    pose proof (Z.div_le_upper_bound (Qfloor s) 60 (Qfloor s) ltac:(lia) ltac:(lia)).
    pose proof (Z.div_pos (Qfloor s) 60 F0 ltac:(lia)).
    lia. }
  assert (K53 : (Z.abs (Qfloor s / 60) <= 2 ^ 53)%Z) by lia.
  assert (K0 : 0 <= inject_Z (Qfloor s / 60)).
  { change 0 with (inject_Z 0). rewrite <- Zle_Qle. lia. }
  assert (K53' : inject_Z (Qfloor s / 60) < inject_Z (2 ^ 53)).
  { rewrite <- Zlt_Qlt. lia. }
  cbn beta iota.
  rewrite (float_div_mod_Z (inject_Z (Qfloor s / 60)) 60)
    by (auto using F64Facts.is_double_int).
  cbn beta iota. cbn [fst snd].
  rewrite !py_int_inject_Z, !py_int_rem by auto.
  rewrite !Qfloor_Z.
  rewrite (F64Facts.Qfloor_Qeq _ _ (Qred_correct _)).
  change (inject_Z (Zpos 3600)) with (Zpos 3600 # 1). rewrite Qfloor_sub_mul.
  rewrite <- Z.mod_eq by lia. rewrite mod_3600_div_60.
  rewrite Z.div_div by lia. reflexivity.
Qed.

Lemma format_timestamp_agree_witness :
  Utils.format_timestamp (7451 # 2) = format_timestamp (7451 # 2) /\
  Utils.format_timestamp (7451 # 2) = "01:02:05"%string.
Proof.
  split.
  - apply format_timestamp_agree.
    + exists 7451%Z, (-1)%Z. split; [lia|]. split; [unfold F64.emin; lia|].
      reflexivity.
    + vm_compute. discriminate.
    + vm_compute. reflexivity.
  - vm_compute. reflexivity.
Defined.

(** The two formatters part ways below zero: at the double nearest
    [-1e-14], [seconds % 3600] rounds up to [3600.0], so Python's [//] and
    [%] give ["-1:60:59"] where [divmod] gives ["-1:59:59"]. *)
Lemma format_timestamp_negative :
  Utils.format_timestamp (F64.round (- (1 # 100000000000000))) = "-1:60:59"%string /\
  format_timestamp (F64.round (- (1 # 100000000000000))) = "-1:59:59"%string.
Proof. split; vm_compute; reflexivity. Qed.

(** ** Batched CLIP embeddings *)

Lemma concat_batches : forall (Frame : Type) fuel bs (l : list Frame),
  (0 < bs)%nat -> (length l <= fuel)%nat ->
  concat (SceneDetector.batches Frame fuel bs l) = l.
Proof.
  intros Frame fuel bs; induction fuel as [|fuel IH]; intros l Hbs Hl.
  - destruct l; [reflexivity|simpl in Hl; lia].
  - destruct l as [|a l']; [reflexivity|].
    cbn [SceneDetector.batches concat]. rewrite IH; [apply firstn_skipn|exact Hbs|].
    rewrite length_skipn. cbn [length] in Hl |- *. lia.
Qed.

Lemma map_r_map {A B} (f : A -> result B) (g : A -> B) : forall l,
  (forall x, In x l -> f x = Ok (g x)) -> map_r f l = Ok (map g l).
Proof.
  induction l as [|x l IH]; intros H; simpl; [reflexivity|].
  rewrite (H x (or_introl eq_refl)), IH; [reflexivity|].
  intros y Hy. exact (H y (or_intror Hy)).
Qed.

(** X9: [_get_embeddings] raises [ValueError] (from [np.vstack]) on an empty
    frame list; on a non-empty one, when the encoder maps each image of a
    batch to its own row, the batching into slices of 32 is invisible: the
    result is one row per frame, in frame order. *)
Theorem get_embeddings_rowwise : forall (Frame Row : Type)
  (encode_batch : list Frame -> result (list Row)) (encode : Frame -> Row),
  (forall batch, encode_batch batch = Ok (map encode batch)) ->
  SceneDetector.get_embeddings Frame Row encode_batch []
    = Err (ValueError "need at least one array to concatenate"%string) /\
  (forall frames, frames <> [] ->
   SceneDetector.get_embeddings Frame Row encode_batch frames
     = Ok (map encode frames)).
Proof.
  intros Frame Row enc f Henc. split; [reflexivity|].
  intros frames Hne. unfold SceneDetector.get_embeddings.
  assert (HB : concat (SceneDetector.batches Frame (length frames) 32 frames) = frames)
    by (apply concat_batches; lia).
  rewrite (map_r_map enc (map f)) by (intros; apply Henc).
  destruct (SceneDetector.batches Frame (length frames) 32 frames) as [|b bs].
  - simpl in HB. subst frames. contradiction.
  - rewrite <- HB, concat_map. reflexivity.
Qed.

(** ** Answers of the completion service *)

Lemma lstrip_head : forall l c r, lstrip_chars l = c :: r -> is_space c = false.
Proof.
  induction l as [|x l IH]; intros c r H; simpl in H; [discriminate|].
  destruct (is_space x) eqn:E; [exact (IH c r H)|]. injection H as <- _. exact E.
Qed.

Lemma lstrip_app : forall l c r, is_space c = false ->
  lstrip_chars (l ++ c :: r) = lstrip_chars l ++ c :: r.
Proof.
  induction l as [|x l IH]; intros c r Hc; simpl.
  - now rewrite Hc.
  - destruct (is_space x); [apply IH, Hc|reflexivity].
Qed.

(** The characters of [strip s] neither start nor end with whitespace. *)
Lemma strip_ends : forall s,
  (forall c r, list_ascii_of_string (strip s) = c :: r -> is_space c = false) /\
  (forall c r, list_ascii_of_string (strip s) = r ++ [c] -> is_space c = false).
Proof.
  intros s. unfold strip. rewrite list_ascii_of_string_of_list_ascii.
  set (u := lstrip_chars (list_ascii_of_string s)).
  assert (Hu : forall c r, u = c :: r -> is_space c = false) by apply lstrip_head.
  split.
  - intros c r H. destruct u as [|c0 r0] eqn:Eu; [simpl in H; discriminate|].
    specialize (Hu c0 r0 eq_refl). simpl in H.
    rewrite lstrip_app, rev_app_distr in H by exact Hu. simpl in H.
    injection H as <- _. exact Hu.
  - intros c r H. apply (f_equal (@rev Ascii.ascii)) in H.
    rewrite rev_involutive, rev_app_distr in H. simpl in H.
    exact (lstrip_head _ _ _ H).
Qed.

(** X10: on a reply with a success status whose JSON object has distinct
    keys, [generate_answer] raises [ValueError("No response returned from
    Ollama LLM")] when there is no ["response"] key, returns the stripped
    string when ["response"] holds a string, and raises [AttributeError]
    (no [.strip()]) when it holds any other JSON value. *)
Theorem generate_answer_reply : forall post question context status kvs,
  post (generate_request (SYSTEM_PROMPT_TEMPLATE_format context question))
    = HttpReply status (Some (JObj kvs)) ->
  (status < 400 \/ 600 <= status)%Z ->
  NoDup (map fst kvs) ->
  (~ In "response"%string (map fst kvs) ->
   generate_answer post question context
     = Err (ValueError "No response returned from Ollama LLM"%string)) /\
  (forall s, In ("response"%string, JStr s) kvs ->
   generate_answer post question context = Ok (strip s)) /\
  (forall v, In ("response"%string, v) kvs -> (forall s, v <> JStr s) ->
   generate_answer post question context = Err AttributeError).
Proof.
  intros post question context status kvs Hp Hs Hnd.
  assert (Hst : ((400 <=? status) && (status <? 600))%Z = false)
    by (destruct Hs; destruct (Z.leb_spec 400 status), (Z.ltb_spec status 600);
        simpl; lia).
  assert (Hget : forall v, In ("response"%string, v) kvs ->
            generate_answer post question context
            = match v with JStr s => Ok (strip s) | _ => Err AttributeError end).
  { intros v Hv. unfold generate_answer. rewrite Hp, Hst. simpl.
    replace (existsb (fun kv => String.eqb (fst kv) "response") kvs) with true.
    2:{ symmetry. apply existsb_exists. exists ("response"%string, v).
        split; [exact Hv|apply String.eqb_refl]. }
    simpl.
    destruct (find (fun kv => String.eqb (fst kv) "response") kvs) as [[k w]|] eqn:F.
    - apply find_some in F as [Hw Hk]. apply String.eqb_eq in Hk. simpl in Hk.
      subst k.
      pose proof (NoDup_map_eq fst kvs _ _ Hnd Hw Hv eq_refl) as E.
      injection E as ->. reflexivity.
    - exfalso. apply (find_none _ _ F) in Hv. simpl in Hv.
      discriminate. }
  split; [|split].
  - intros Hk. unfold generate_answer. rewrite Hp, Hst. simpl.
    destruct (existsb (fun kv => String.eqb (fst kv) "response") kvs) eqn:E;
      [|reflexivity].
    exfalso. apply Hk. apply existsb_exists in E as [[k x] [Hin Hkx]].
    apply String.eqb_eq in Hkx. simpl in Hkx. subst k.
    apply (in_map fst) in Hin. exact Hin.
  - intros s Hin. exact (Hget _ Hin).
  - intros v Hin Hv. rewrite (Hget _ Hin).
    destruct v; try reflexivity. exfalso. exact (Hv s eq_refl).
Qed.

(** X11: an answer returned by [generate_answer] never starts or ends with
    a whitespace character ([.strip()]), whatever the service replied. *)
Theorem generate_answer_stripped : forall post question context answer,
  generate_answer post question context = Ok answer ->
  (forall c r, list_ascii_of_string answer = c :: r -> is_space c = false) /\
  (forall c r, list_ascii_of_string answer = r ++ [c] -> is_space c = false).
Proof.
  intros post question context answer H. unfold generate_answer in H.
  destruct (post _) as [|status body]; [discriminate|].
  destruct (((400 <=? status) && (status <? 600))%Z); [discriminate|].
  destruct body as [result|]; [|discriminate].
  destruct (py_contains "response" result) as [[|]|e]; simpl in H; try discriminate.
  destruct (py_getitem result "response") as [v|e]; simpl in H; [|discriminate].
  destruct v; try discriminate. injection H as <-. apply strip_ends.
Qed.

(** ** System readiness *)

(** X12: [check_system_ready] reports no issue exactly when the tags
    endpoint answers 200 and both test calls ([get_embedding("test")] and
    [generate_answer("test question", "test context")]) return; with the
    server unreachable it reports all three issues; and the "Process Video"
    button is enabled only with a file uploaded and no issue. *)
Theorem check_system_ready_spec : forall tags post_embeddings post_generate,
  (check_system_ready tags post_embeddings post_generate = [] <->
   check_ollama_available tags = true /\
   succeeded (get_embedding post_embeddings "test"%string) = true /\
   succeeded (generate_answer post_generate "test question"%string
                "test context"%string) = true) /\
  (check_ollama_available tags = false ->
   check_system_ready tags post_embeddings post_generate
   = [OllamaNotRunning; EmbeddingModelMissing OLLAMA_EMBEDDING_MODEL;
      LLMModelMissing OLLAMA_LLM_MODEL]) /\
  (forall uploaded,
   process_enabled tags post_embeddings post_generate uploaded = true ->
   uploaded = true /\
   check_system_ready tags post_embeddings post_generate = []).
Proof.
  intros tags pe pg.
  assert (Hiff : check_system_ready tags pe pg = [] <->
   check_ollama_available tags = true /\
   succeeded (get_embedding pe "test"%string) = true /\
   succeeded (generate_answer pg "test question"%string "test context"%string) = true).
  { unfold check_system_ready, test_ollama_models.
    destruct (check_ollama_available tags); simpl;
      [|split; [discriminate|intros [H _]; discriminate]].
    destruct (succeeded (get_embedding pe "test")),
      (succeeded (generate_answer pg "test question" "test context"));
      simpl; split; try discriminate; try (intros [_ [H1 H2]]; discriminate); auto. }
  split; [exact Hiff|split].
  - intros H. unfold check_system_ready, test_ollama_models. rewrite H. reflexivity.
  - intros uploaded H. unfold process_enabled in H.
    apply andb_true_iff in H as [Hu Hr]. split; [exact Hu|].
    destruct (check_system_ready tags pe pg); [reflexivity|discriminate].
Qed.

(** ** Audio transcripts *)

Lemma audio_segments_frame_index : forall segs a,
  In a (audio_segments segs) -> a_frame_index a = (-1)%Z.
Proof.
  induction segs as [|[start raw] segs IH]; intros a Ha; simpl in Ha; [contradiction|].
  destruct (String.eqb (strip raw) ""); [exact (IH a Ha)|].
  destruct Ha as [<-|Ha]; [reflexivity|exact (IH a Ha)].
Qed.

Lemma process_video_frame_index : forall extraction audio_exists transcription a,
  In a (process_video extraction audio_exists transcription) ->
  a_frame_index a = (-1)%Z.
Proof.
  intros [| |] [|] [segs|e] a Ha; simpl in Ha; try contradiction.
  exact (audio_segments_frame_index segs a Ha).
Qed.

(** X14: indexing the output of [AudioProcessor.process_video] for a video
    fails with [DuplicateIDError] as soon as it holds two segments, whatever
    the transcript, and leaves the collection as it was: all segments get
    the id [f"{video_id}_-1"]. *)
Theorem index_audio_segments_rejected : forall embeddings_fn st video_id
  extraction audio_exists transcription,
  (forall s, exists y, embeddings_fn s = Ok y) ->
  (2 <= length (process_video extraction audio_exists transcription))%nat ->
  index_video_frames embeddings_fn st video_id
    (map audio_record (process_video extraction audio_exists transcription))
  = (Err DuplicateIDError, st).
Proof.
  intros f st v ext ex tr Hemb Hlen.
  pose proof (process_video_frame_index ext ex tr) as Hfi.
  destruct (process_video ext ex tr) as [|a1 [|a2 rest]];
    simpl in Hlen; try lia.
  destruct (map_r_index_ok f v (map audio_record (a1 :: a2 :: rest)))
    as [es [Hes [Hids _]]]; [intros r _; apply Hemb|].
  unfold index_video_frames. simpl map at 1. rewrite Hes.
  unfold Chroma.add. rewrite Hids.
  assert (E : frame_id v (audio_record a1) = frame_id v (audio_record a2)).
  { unfold frame_id, audio_record. simpl.
    rewrite (Hfi a1 (or_introl eq_refl)), (Hfi a2 (or_intror (or_introl eq_refl))).
    reflexivity. }
  simpl. rewrite E, String.eqb_refl. reflexivity.
Qed.

(** ** Witnesses of the further properties *)

Lemma fresh_prefix_of : forall st p,
  forallb (fun x => negb (String.prefix p (e_id x))) st = true ->
  forall x, In x st -> String.prefix p (e_id x) = false.
Proof.
  intros st p H x Hx. rewrite forallb_forall in H.
  specialize (H x Hx). now apply negb_true_iff in H.
Qed.

Lemma fresh_ids_of : forall st v records,
  forallb (fun x => forallb (fun r => negb (String.eqb (e_id x) (frame_id v r)))
                      records) st = true ->
  forall x r, In x st -> In r records -> e_id x <> frame_id v r.
Proof.
  intros st v records H x r Hx Hr E. rewrite forallb_forall in H.
  specialize (H x Hx). rewrite forallb_forall in H. specialize (H r Hr).
  rewrite E, String.eqb_refl in H. discriminate.
Qed.

(** X1 on [Demo.store]: two new frames of [v3]. *)
Lemma index_video_frames_fresh_round_trip_witness :
  fst (index_video_frames Demo.embed Demo.store "v3" [Demo.rec0; Demo.rec1])
    = Ok 2%nat /\
  total_frames (get_collection_stats
     (snd (index_video_frames Demo.embed Demo.store "v3" [Demo.rec0; Demo.rec1])))
    = (total_frames (get_collection_stats Demo.store) + 2)%nat /\
  Chroma.get_ids
    (snd (index_video_frames Demo.embed Demo.store "v3" [Demo.rec0; Demo.rec1])) "v3"
    = Chroma.get_ids Demo.store "v3"
      ++ map (frame_id "v3") [Demo.rec0; Demo.rec1].
Proof.
  apply (index_video_frames_fresh_round_trip Demo.embed Demo.store "v3"
           [Demo.rec0; Demo.rec1]).
  - discriminate.
  - simpl. constructor; [intros [H|[]]; discriminate|].
    constructor; [intros []|constructor].
  - intros r _. eexists. reflexivity.
  - apply fresh_ids_of. vm_compute. reflexivity.
Defined.

(** X2 on [v1] (three entries) with [top_k = 3], then [top_k = 0]. *)
Lemma query_video_result_count_witness :
  (exists res,
     query_video Demo.embed Demo.store "v1" Demo.question 3 = Ok res /\
     length res = Nat.min 3 (length (filter (Chroma.matches "v1") Demo.store))) /\
  query_video Demo.embed Demo.store "v1" Demo.question 0 = Err InvalidNResults.
Proof.
  split.
  - exact (proj1 (query_video_result_count Demo.embed Demo.store "v1" Demo.question
                    3 [17] eq_refl) ltac:(lia)).
  - exact (proj2 (query_video_result_count Demo.embed Demo.store "v1" Demo.question
                    0 [17] eq_refl) ltac:(lia)).
Defined.

(** X4 on [Demo.store]: deleting [v1] keeps the entry of [v2]. *)
Lemma delete_video_frames_scope_witness :
  snd (delete_video_frames Demo.store "v1")
    = filter (fun x => negb (Chroma.matches "v1" x)) Demo.store.
Proof.
  apply delete_video_frames_scope, has_dup_false_NoDup. vm_compute. reflexivity.
Defined.

(** X5 on four frames at 2 fps extracted at 1 fps. *)
Lemma extract_frames_kept_frames_witness :
  (1 <= frame_interval 2 1)%Z /\
  exists xs,
    extract_frames nat "v.mp4" Demo.video 1 = Ok xs /\
    map (x_frame_index nat) xs = zseq 0 (length xs) /\
    map (fun x => (x_frame nat x, x_timestamp_seconds nat x)) xs
      = map (fun p => (fst p, inject_Z (snd p) / 2))
          (filter (fun p => (snd p mod frame_interval 2 1 =? 0)%Z)
             (enumerate 0 [10%nat; 11%nat; 12%nat; 13%nat])) /\
    Forall (fun x => x_timestamp_str nat x
                     = Utils.format_timestamp (x_timestamp_seconds nat x)) xs /\
    xs <> [].
Proof.
  destruct (extract_frames_kept_frames nat "v.mp4" Demo.video 1 eq_refl
              ltac:(unfold Qeq; simpl; lia)) as [H1 [xs [H2 [H3 [H4 [H5 H6]]]]]].
  split; [exact H1|]. exists xs. split; [exact H2|]. split; [exact H3|].
  split; [exact H4|]. split; [apply Forall_forall; exact H5|].
  apply H6. discriminate.
Defined.

(** X6 on a video that does not open and on one reporting [0] fps. *)
Lemma extract_frames_errors_witness :
  extract_frames nat "v.mp4" Demo.closed_video 1
    = Err (ValueError ("Could not open video file: " ++ "v.mp4")%string) /\
  extract_frames nat "v.mp4" Demo.zero_fps_video 1 = Err ZeroDivisionError.
Proof.
  split.
  - exact (proj1 (extract_frames_errors nat "v.mp4" Demo.closed_video 1) eq_refl).
  - exact (proj2 (extract_frames_errors nat "v.mp4" Demo.zero_fps_video 1) eq_refl
             ltac:(reflexivity) ltac:(discriminate)).
Defined.

(** X7: uploading [Demo.video] as [v9] next to [Demo.store]. *)
Lemma process_video_pipeline_indexes_all_witness :
  exists summary added,
    process_video_pipeline nat Demo.save Demo.caption_all Demo.embed Demo.store
      Demo.video 4 640 480 "v9" 1 = (Some summary, Demo.store ++ added) /\
    s_num_indexed summary = s_num_frames summary /\
    (1 <= s_num_frames summary)%nat /\
    map e_id added = map (fun i => ("v9" ++ "_" ++ str_of_Z i)%string)
                       (zseq 0 (s_num_frames summary)) /\
    Chroma.get_ids (Demo.store ++ added) "v9"
      = Chroma.get_ids Demo.store "v9" ++ map e_id added.
Proof.
  apply (process_video_pipeline_indexes_all nat Demo.save Demo.caption_all Demo.embed
           Demo.store Demo.video 4 640 480 "v9" 1 "data/videos/v9.mp4").
  - reflexivity.
  - reflexivity.
  - unfold Qeq; simpl; lia.
  - discriminate.
  - intros f _. eexists. reflexivity.
  - intros s. eexists. reflexivity.
  - apply fresh_prefix_of. vm_compute. reflexivity.
Defined.

(** X9 on three frames with a row-wise encoder, and on no frame. *)
Lemma get_embeddings_rowwise_witness :
  SceneDetector.get_embeddings nat nat Demo.encode_batch []
    = Err (ValueError "need at least one array to concatenate"%string) /\
  SceneDetector.get_embeddings nat nat Demo.encode_batch [1; 2; 3]%nat
    = Ok (map S [1; 2; 3]%nat).
Proof.
  destruct (get_embeddings_rowwise nat nat Demo.encode_batch S (fun _ => eq_refl))
    as [H1 H2].
  split; [exact H1|]. apply H2. discriminate.
Defined.

(** X10: a reply holding ["  A red car.\n"], and the reply
    [{"error": "model not found"}]. *)
Lemma generate_answer_reply_witness :
  generate_answer Demo.llm_server Demo.question Demo.context
    = Ok (strip (String.append "  A red car." newline)) /\
  generate_answer Demo.no_embedding_server Demo.question Demo.context
    = Err (ValueError "No response returned from Ollama LLM"%string).
Proof.
  split.
  - apply (proj1 (proj2 (generate_answer_reply Demo.llm_server Demo.question
             Demo.context 200 _ eq_refl (or_introl eq_refl)
             ltac:(simpl; constructor; [intros [H|[]]; discriminate|
                                        constructor; [intros []|constructor]])))).
    simpl. right. left. reflexivity.
  - apply (proj1 (generate_answer_reply Demo.no_embedding_server Demo.question
             Demo.context 200 _ eq_refl (or_introl eq_refl)
             ltac:(simpl; constructor; [intros []|constructor]))).
    simpl. intros [H|[]]. discriminate.
Defined.

(** X11: the answer ["A red car."] starts with ["A"] (code 65) and ends with
    ["."] (code 46). *)
Lemma generate_answer_stripped_witness :
  generate_answer Demo.llm_server Demo.question Demo.context = Ok "A red car."%string /\
  is_space (Ascii.ascii_of_nat 65) = false /\ is_space (Ascii.ascii_of_nat 46) = false.
Proof.
  assert (H : generate_answer Demo.llm_server Demo.question Demo.context
              = Ok "A red car."%string) by (vm_compute; reflexivity).
  destruct (generate_answer_stripped _ _ _ _ H) as [H1 H2].
  split; [exact H|]. split.
  - exact (H1 (Ascii.ascii_of_nat 65) (list_ascii_of_string " red car."%string) eq_refl).
  - exact (H2 (Ascii.ascii_of_nat 46) (list_ascii_of_string "A red car"%string) eq_refl).
Defined.

(** X12 with every endpoint answering, then with the server unreachable. *)
Lemma check_system_ready_spec_witness :
  check_system_ready Demo.tags_up Demo.embedding_server Demo.llm_server = [] /\
  check_system_ready HttpUnreachable Demo.embedding_server Demo.llm_server
    = [OllamaNotRunning; EmbeddingModelMissing OLLAMA_EMBEDDING_MODEL;
       LLMModelMissing OLLAMA_LLM_MODEL] /\
  process_enabled Demo.tags_up Demo.embedding_server Demo.llm_server true = true.
Proof.
  destruct (check_system_ready_spec Demo.tags_up Demo.embedding_server Demo.llm_server)
    as [[_ Hup] [_ Hen]].
  destruct (check_system_ready_spec HttpUnreachable Demo.embedding_server
              Demo.llm_server) as [_ [Hdown _]].
  split; [apply Hup; repeat split|].
  split; [apply Hdown; reflexivity|].
  unfold process_enabled. rewrite (Hup ltac:(repeat split)). reflexivity.
Defined.

(** X14 on the two spoken segments of [Demo.transcript]. *)
Lemma index_audio_segments_rejected_witness :
  index_video_frames Demo.embed Demo.store "v1"
    (map audio_record (process_video AudioWritten true (Ok Demo.transcript)))
  = (Err DuplicateIDError, Demo.store).
Proof.
  apply index_audio_segments_rejected.
  - intros s. eexists. reflexivity.
  - vm_compute. lia.
Defined.
